(** * The F* language-server bridge of [server/src/server.ts]

    A shallow embedding of the protocol bridge: the coordinate remap
    [mkPosition], the translators [handleIdeProgress] and
    [handleIdeFailure], the line dispatcher
    [handleOneResponseForDocument] / [handleFStarResponseForDocument],
    the query encoder [sendRequestForDocument] and the document
    life-cycle handlers, followed by the properties the specification
    states about them.

    Conventions of the embedding.
    - A value of TypeScript type [any] is a [json] value or [undefined]
      ([jsval := option json]).  TypeScript's interfaces are erased when
      the server runs: the handlers take the values [JSON.parse]
      produced, and the interface [IdeError] comes back as a typed view
      of such values in the statements.
    - A JavaScript number that holds an integer is a [Z]; this is exact
      while magnitudes stay below 2^53, which line numbers, columns and
      query counters do.  Number literals with a fraction or an exponent,
      and integer literals of magnitude 2^53 or more, are outside the
      embedding.
    - A JavaScript string is a [string], one character per code unit
      below 256.
    - Effects are threaded through the state type [World]: the two
      module-level maps, the table of spawned subprocesses and the list
      of messages sent to the editor connection and to the console.
    - An exception is a completion [Throw]; effects performed before the
      exception stay in the state. *)

From Stdlib Require Import ZArith String Ascii List Bool Lia.
From stdpp Require Import base option list strings pretty gmap.

Set Warnings "-register-all".
Open Scope Z_scope.
Open Scope string_scope.

(** ** JSON values and the JavaScript operations the server applies to them *)

Module Js.

Inductive json : Type :=
| JNull
| JBool (b : bool)
| JNum (n : Z)
| JStr (s : string)
| JArr (items : list json)
| JObj (members : list (string * json)).

(** [None] is [undefined]. *)
Definition jsval : Type := option json.

(** A number after arithmetic: an integer or [NaN]. *)
Inductive number : Type :=
| Num (n : Z)
| NaN.

Inductive exn : Type :=
| SyntaxError
| TypeError
| Error.

(** How a piece of code completes.  [Unmodelled] marks the few places
    where the JavaScript behaviour is outside the embedding (conversion
    of a string or an array to a number, a number literal that is not an
    integer below 2^53); no theorem speaks about such runs. *)
Inductive completion (A : Type) : Type :=
| Normal (a : A)
| Throw (e : exn)
| Unmodelled.
Arguments Normal {A} a.
Arguments Throw {A} e.
Arguments Unmodelled {A}.

(** Own properties of an object, first match. Objects built by
    [set_prop] never hold a key twice. *)
Fixpoint assoc (k : string) (ms : list (string * json)) : jsval :=
  match ms with
  | [] => None
  | (k', v) :: ms' => if String.eqb k k' then Some v else assoc k ms'
  end.

(** [o[k] = v]: overwrite in place or append. *)
Fixpoint set_prop (k : string) (v : json) (ms : list (string * json))
  : list (string * json) :=
  match ms with
  | [] => [(k, v)]
  | (k', v') :: ms' =>
      if String.eqb k k' then (k, v) :: ms' else (k', v') :: set_prop k v ms'
  end.

(** [v.k] for the property names the server reads ([kind], [level],
    [contents], [status], [response], [stage], [ranges], [beg], [end],
    [message]): none of them is a member of a built-in prototype, so on a
    primitive or an array the read yields [undefined]; on [null] and
    [undefined] it raises. *)
Definition get_prop (v : jsval) (k : string) : completion jsval :=
  match v with
  | None | Some JNull => Throw TypeError
  | Some (JObj ms) => Normal (assoc k ms)
  | Some _ => Normal None
  end.

Fixpoint string_nth (i : nat) (s : string) : option ascii :=
  match s, i with
  | EmptyString, _ => None
  | String c _, O => Some c
  | String _ s', S i' => string_nth i' s'
  end.

(** [v[i]] for a literal index [i]. *)
Definition get_index (v : jsval) (i : nat) : completion jsval :=
  match v with
  | None | Some JNull => Throw TypeError
  | Some (JArr items) => Normal (items !! i)
  | Some (JStr s) => Normal ((fun c => JStr (String c EmptyString)) <$> string_nth i s)
  | Some (JObj ms) => Normal (assoc (pretty i) ms)
  | Some (JNum _) | Some (JBool _) => Normal None
  end.

Fixpoint join (sep : string) (l : list string) : string :=
  match l with
  | [] => ""
  | [s] => s
  | s :: l' => s +:+ sep +:+ join sep l'
  end.

(** The string form of a JSON value, as [==], [+] and [-] obtain it;
    [None] when the conversion raises [TypeError].  An object prints
    through [Object.prototype.toString]; when it has an own member
    [toString], that member is found first and, being a JSON value, cannot
    be called: the conversion then has no method left and raises.  (An
    own [valueOf] is skipped for the same reason and changes nothing.)
    An array joins the string forms of its elements with a comma, [null]
    elements printing as the empty string, and raises when one of them
    does. *)
Fixpoint to_string (v : json) : option string :=
  match v with
  | JNull => Some "null"
  | JBool true => Some "true"
  | JBool false => Some "false"
  | JNum n => Some (pretty n)
  | JStr s => Some s
  | JArr items =>
      option_map (join ",")
        ((fix each (l : list json) : option (list string) :=
            match l with
            | [] => Some []
            | x :: l' =>
                match (match x with JNull => Some "" | _ => to_string x end),
                      each l' with
                | Some t, Some ts => Some (t :: ts)
                | _, _ => None
                end
            end) items)
  | JObj ms =>
      match assoc "toString" ms with
      | Some _ => None
      | None => Some "[object Object]"
      end
  end.

(** [String(v)], as the operand of a string concatenation. *)
Definition to_string_val (v : jsval) : completion string :=
  match v with
  | None => Normal "undefined"
  | Some j =>
      match to_string j with
      | Some s => Normal s
      | None => Throw TypeError
      end
  end.

(** [v == lit] where [lit] is one of the string literals of the source.
    None of them reads as a number, so a number or a boolean is never
    equal to it; an array or an object is compared through its string
    form, and the comparison raises when there is none. *)
Definition loose_eq (v : jsval) (lit : string) : completion bool :=
  match v with
  | None | Some JNull => Normal false
  | Some (JBool _) | Some (JNum _) => Normal false
  | Some (JStr s) => Normal (String.eqb s lit)
  | Some (JArr items) =>
      match to_string (JArr items) with
      | Some s => Normal (String.eqb s lit)
      | None => Throw TypeError
      end
  | Some (JObj ms) =>
      match to_string (JObj ms) with
      | Some s => Normal (String.eqb s lit)
      | None => Throw TypeError
      end
  end.

(** [!v] *)
Definition falsy (v : jsval) : bool :=
  match v with
  | None | Some JNull | Some (JBool false) | Some (JNum 0) => true
  | Some (JStr s) => String.eqb s ""
  | Some _ => false
  end.

(** The integers a number holds exactly, with their neighbours. *)
Definition safe_integer (n : Z) : bool := ((- 2 ^ 53 <? n) && (n <? 2 ^ 53))%Z.

(** [v - 1].  On an integer below 2^53 in magnitude the subtraction is
    exact, and [JSON.parse] yields no other integer in the embedding.  An
    object converts through its string form, which is no number; the
    conversion raises when the object has none. *)
Definition minus_one (v : jsval) : completion number :=
  match v with
  | None => Normal NaN
  | Some JNull => Normal (Num (-1))
  | Some (JBool true) => Normal (Num 0)
  | Some (JBool false) => Normal (Num (-1))
  | Some (JNum n) => Normal (Num (n - 1))
  | Some (JObj ms) =>
      match to_string (JObj ms) with
      | Some _ => Normal NaN
      | None => Throw TypeError
      end
  | Some (JStr _) | Some (JArr _) => Unmodelled
  end.

End Js.
Export Js.

(** ** [JSON.parse] and [JSON.stringify]

    The two built-ins the server calls, for the fragment of JSON the
    embedding represents. *)

Module JSON.

Inductive presult (A : Type) : Type :=
| POk (a : A)
| PSyntax                (* [JSON.parse] raises [SyntaxError] *)
| PUnsupported.          (* a literal the embedding does not represent *)
Arguments POk {A} a.
Arguments PSyntax {A}.
Arguments PUnsupported {A}.

Definition pbind {A B : Type} (x : presult A) (f : A -> presult B) : presult B :=
  match x with
  | POk a => f a
  | PSyntax => PSyntax
  | PUnsupported => PUnsupported
  end.

Definition is_ws (c : ascii) : bool :=
  (Ascii.eqb c " " || Ascii.eqb c "009" || Ascii.eqb c "010" || Ascii.eqb c "013")%bool.

Fixpoint skip_ws (s : string) : string :=
  match s with
  | String c r => if is_ws c then skip_ws r else s
  | EmptyString => s
  end.

Definition code (c : ascii) : Z := Z.of_nat (nat_of_ascii c).

Definition digit_of (c : ascii) : option Z :=
  if ((48 <=? code c) && (code c <=? 57))%Z then Some (code c - 48) else None.

Definition hex_of (c : ascii) : option Z :=
  if ((48 <=? code c) && (code c <=? 57))%Z then Some (code c - 48)
  else if ((97 <=? code c) && (code c <=? 102))%Z then Some (code c - 87)
  else if ((65 <=? code c) && (code c <=? 70))%Z then Some (code c - 55)
  else None.

(** The digits after the first one of an integer part. *)
Fixpoint parse_digits (acc : Z) (s : string) : Z * string :=
  match s with
  | String c r =>
      match digit_of c with
      | Some d => parse_digits (10 * acc + d) r
      | None => (acc, s)
      end
  | EmptyString => (acc, s)
  end.

(** After the integer part: a fraction or an exponent is not
    represented, nor an integer that a number does not hold exactly. *)
Definition finish_number (n : Z) (rest : string) : presult (json * string) :=
  match rest with
  | String c _ =>
      if (Ascii.eqb c "." || Ascii.eqb c "e" || Ascii.eqb c "E")%bool
      then PUnsupported
      else if safe_integer n then POk (JNum n, rest) else PUnsupported
  | EmptyString => if safe_integer n then POk (JNum n, rest) else PUnsupported
  end.

(** [int = "0" | digit1-9 digits]; [s] starts at the first digit. *)
Definition parse_int (neg : bool) (s : string) : presult (json * string) :=
  match s with
  | String c r =>
      match digit_of c with
      | Some 0 => finish_number 0 r
      | Some d =>
          let '(n, rest) := parse_digits d r in
          finish_number (if neg then - n else n) rest
      | None => PSyntax
      end
  | EmptyString => PSyntax
  end.

Definition simple_escape (e : ascii) : option ascii :=
  if Ascii.eqb e "034" then Some "034"%char
  else if Ascii.eqb e "\" then Some "\"%char
  else if Ascii.eqb e "/" then Some "/"%char
  else if Ascii.eqb e "b" then Some "008"%char
  else if Ascii.eqb e "f" then Some "012"%char
  else if Ascii.eqb e "n" then Some "010"%char
  else if Ascii.eqb e "r" then Some "013"%char
  else if Ascii.eqb e "t" then Some "009"%char
  else None.

Definition cons_char (c : ascii) (x : presult (string * string))
  : presult (string * string) :=
  pbind x (fun '(str, rest) => POk (String c str, rest)).

(** The characters of a string literal, after the opening quote. *)
Fixpoint parse_chars (s : string) : presult (string * string) :=
  match s with
  | EmptyString => PSyntax
  | String c r =>
      if Ascii.eqb c "034" then POk (EmptyString, r)
      else if Ascii.eqb c "\" then
        match r with
        | String e r' =>
            if Ascii.eqb e "u" then
              match r' with
              | String h1 (String h2 (String h3 (String h4 r''))) =>
                  match hex_of h1, hex_of h2, hex_of h3, hex_of h4 with
                  | Some x1, Some x2, Some x3, Some x4 =>
                      if ((x1 =? 0) && (x2 =? 0))%Z
                      then cons_char (ascii_of_nat (Z.to_nat (16 * x3 + x4)))
                             (parse_chars r'')
                      else PUnsupported
                  | _, _, _, _ => PSyntax
                  end
              | _ => PSyntax
              end
            else
              match simple_escape e with
              | Some ch => cons_char ch (parse_chars r')
              | None => PSyntax
              end
        | EmptyString => PSyntax
        end
      else if (code c <? 32)%Z then PSyntax
      else cons_char c (parse_chars r)
  end.

Definition strip_prefix (p s : string) : option string :=
  if String.prefix p s
  then Some (String.substring (String.length p) (String.length s - String.length p) s)
  else None.

Definition parse_literal (lit : string) (v : json) (s : string)
  : presult (json * string) :=
  match strip_prefix lit s with
  | Some rest => POk (v, rest)
  | None => PSyntax
  end.

(** [value], the elements of an array after the first, the members of
    an object.  The fuel bounds the nesting and the number of items; the
    entry point supplies more than the text can use. *)
Fixpoint parse_value (fuel : nat) (s : string) {struct fuel}
  : presult (json * string) :=
  match fuel with
  | O => PUnsupported
  | S fuel' =>
      match skip_ws s with
      | EmptyString => PSyntax
      | String c r =>
          if Ascii.eqb c "n" then parse_literal "null" JNull (String c r)
          else if Ascii.eqb c "t" then parse_literal "true" (JBool true) (String c r)
          else if Ascii.eqb c "f" then parse_literal "false" (JBool false) (String c r)
          else if Ascii.eqb c "034" then
            pbind (parse_chars r) (fun '(str, rest) => POk (JStr str, rest))
          else if Ascii.eqb c "-" then parse_int true r
          else if Ascii.eqb c "[" then
            match skip_ws r with
            | String "]" r' => POk (JArr [], r')
            | _ => pbind (parse_elements fuel' r)
                     (fun '(items, rest) => POk (JArr items, rest))
            end
          else if Ascii.eqb c "{" then
            match skip_ws r with
            | String "}" r' => POk (JObj [], r')
            | _ => pbind (parse_members fuel' [] r)
                     (fun '(ms, rest) => POk (JObj ms, rest))
            end
          else parse_int false (String c r)
      end
  end
with parse_elements (fuel : nat) (s : string) {struct fuel}
  : presult (list json * string) :=
  match fuel with
  | O => PUnsupported
  | S fuel' =>
      pbind (parse_value fuel' s) (fun '(v, rest) =>
        match skip_ws rest with
        | String "," rest' =>
            pbind (parse_elements fuel' rest')
              (fun '(vs, rest'') => POk (v :: vs, rest''))
        | String "]" rest' => POk ([v], rest')
        | _ => PSyntax
        end)
  end
with parse_members (fuel : nat) (acc : list (string * json)) (s : string)
  {struct fuel} : presult (list (string * json) * string) :=
  match fuel with
  | O => PUnsupported
  | S fuel' =>
      match skip_ws s with
      | String "034" r =>
          pbind (parse_chars r) (fun '(key, rest) =>
            match skip_ws rest with
            | String ":" rest' =>
                pbind (parse_value fuel' rest') (fun '(v, rest'') =>
                  let acc' := set_prop key v acc in
                  match skip_ws rest'' with
                  | String "," rest3 => parse_members fuel' acc' rest3
                  | String "}" rest3 => POk (acc', rest3)
                  | _ => PSyntax
                  end)
            | _ => PSyntax
            end)
      | _ => PSyntax
      end
  end.

(** [JSON.parse(text)] *)
Definition parse (text : string) : presult json :=
  pbind (parse_value (2 * String.length text + 2) text) (fun '(v, rest) =>
    match skip_ws rest with
    | EmptyString => POk v
    | String _ _ => PSyntax
    end).

Definition hex_digit (n : Z) : ascii :=
  ascii_of_nat (Z.to_nat (if (n <? 10)%Z then 48 + n else 87 + n)).

(** One character of a string, as [JSON.stringify] prints it. *)
Definition escape_char (c : ascii) : string :=
  if Ascii.eqb c "034" then String "\" (String "034" "")
  else if Ascii.eqb c "\" then "\\"
  else if Ascii.eqb c "008" then "\b"
  else if Ascii.eqb c "012" then "\f"
  else if Ascii.eqb c "010" then "\n"
  else if Ascii.eqb c "013" then "\r"
  else if Ascii.eqb c "009" then "\t"
  else if (code c <? 32)%Z then
    "\u00" +:+ String (hex_digit (code c / 16)) (String (hex_digit (code c mod 16)) "")
  else String c "".

Fixpoint escape (s : string) : string :=
  match s with
  | EmptyString => ""
  | String c r => escape_char c +:+ escape r
  end.

Definition quote (s : string) : string :=
  String "034" (escape s +:+ String "034" "").

(** [JSON.stringify(v)]: no white space, members in insertion order
    (the keys of the query objects are not array indices). *)
Fixpoint stringify (v : json) : string :=
  match v with
  | JNull => "null"
  | JBool true => "true"
  | JBool false => "false"
  | JNum n => pretty n
  | JStr s => quote s
  | JArr items => "[" +:+ join "," (map stringify items) +:+ "]"
  | JObj ms =>
      "{" +:+ join "," (map (fun m => quote (fst m) +:+ ":" +:+ stringify (snd m)) ms)
          +:+ "}"
  end.

End JSON.

(** ** Editor-facing data and the state of the server *)

Record TextDocument : Type := mkTextDocument {
  uri : string;
  getText : string
}.

(** [Position.create(line, character)] keeps its arguments as they are. *)
Record Position : Type := mkPos {
  line : number;
  character : jsval
}.

Record Range : Type := mkRange {
  range_start : Position;
  range_end : Position
}.

Module DiagnosticSeverity.

Inductive t : Type := Error | Warning | Information | Hint.

End DiagnosticSeverity.

Record Diagnostic : Type := mkDiagnostic {
  severity : DiagnosticSeverity.t;
  range : Range;
  message : jsval
}.

Record StatusOkMessage : Type := mkStatusOk {
  ok_uri : string;
  ok_ranges : list Range
}.

Record StatusClearMessage : Type := mkStatusClear {
  clear_uri : string
}.

(** What the server sends out: to the console, and over the editor
    connection ([sendNotification], [sendDiagnostics]). *)
Inductive Event : Type :=
| ConsoleLog (text : string)
| StatusOkNotification (msg : StatusOkMessage)         (* 'custom/statusOk' *)
| StatusClearNotification (msg : StatusClearMessage)   (* 'custom/statusClear' *)
| PublishDiagnostics (doc_uri : string) (diagnostics : list Diagnostic).

(** The branch of the [kind] dispatch a parsed line takes. *)
Inductive Route : Type :=
| ToProtocolInfo
| ToProgress
| ToFailure
| ToSuccess
| ToUnhandled.

Record ExampleSettings : Type := mkSettings {
  maxNumberOfProblems : Z
}.

(** A subprocess started by [cp.spawn]: how it was started, what has
    been written to its standard input, the document its [stdout]
    listener serves, and whether it is still running. *)
Record ChildProcess : Type := mkProc {
  spawn_file : string;
  spawn_args : list string;
  spawn_cwd : string;
  stdin : list string;
  stdout_listener : option TextDocument;
  running : bool
}.

Record IDEState : Type := mkIDEState {
  fstar_ide : nat;           (* handle of the subprocess in [processes] *)
  last_query_id : Z
}.

(** [routed] is a history variable: it records the dispatch branches
    taken and is read by no code. *)
Record World : Type := mkWorld {
  documentSettings : gmap string ExampleSettings;
  documentState : gmap string IDEState;
  processes : list ChildProcess;
  sent : list Event;
  routed : list Route
}.

Definition initial : World := mkWorld ∅ ∅ [] [] [].

(** ** State and exceptions *)

Definition M (A : Type) : Type := World -> completion A * World.

Definition ret {A : Type} (a : A) : M A := fun w => (Normal a, w).

Definition bind {A B : Type} (m : M A) (f : A -> M B) : M B :=
  fun w =>
    match m w with
    | (Normal a, w') => f a w'
    | (Throw e, w') => (Throw e, w')
    | (Unmodelled, w') => (Unmodelled, w')
    end.

Definition lift {A : Type} (c : completion A) : M A := fun w => (c, w).

Declare Scope js_scope.
Delimit Scope js_scope with js.
Notation "x <- m ;; k" := (bind m (fun x => k))
  (at level 100, m at next level, right associativity) : js_scope.
Notation "m ;;; k" := (bind m (fun _ => k))
  (at level 100, right associativity) : js_scope.
Open Scope js_scope.

Definition emit (e : Event) : M unit :=
  fun w => (Normal tt,
            mkWorld (documentSettings w) (documentState w) (processes w)
                    (sent w ++ [e]) (routed w)).

Definition note_route (r : Route) : M unit :=
  fun w => (Normal tt,
            mkWorld (documentSettings w) (documentState w) (processes w)
                    (sent w) (routed w ++ [r])).

(** [l.forEach(f)] *)
Fixpoint forEach {A : Type} (l : list A) (f : A -> M unit) : M unit :=
  match l with
  | [] => ret tt
  | x :: l' => f x ;;; forEach l' f
  end.

Definition console_log (text : string) : M unit := emit (ConsoleLog text).

(** ** The translators *)

Definition sendNotification_statusOk (msg : StatusOkMessage) : M unit :=
  emit (StatusOkNotification msg).

Definition sendNotification_statusClear (msg : StatusClearMessage) : M unit :=
  emit (StatusClearNotification msg).

Definition sendDiagnostics (doc_uri : string) (diagnostics : list Diagnostic) : M unit :=
  emit (PublishDiagnostics doc_uri diagnostics).

(** The message is an object, so the text logged after the prefix is
    its default string form. *)
Definition sendStatusOk (msg : StatusOkMessage) : M unit :=
  console_log ("Sending statusOk notification: " +:+ "[object Object]") ;;;
  sendNotification_statusOk msg.

Definition sendStatusClear (msg : StatusClearMessage) : M unit :=
  console_log ("Sending statusClear notification: " +:+ "[object Object]") ;;;
  sendNotification_statusClear msg.

Definition and_then_c {A B : Type} (c : completion A) (f : A -> completion B)
  : completion B :=
  match c with
  | Normal a => f a
  | Throw e => Throw e
  | Unmodelled => Unmodelled
  end.

(** [Position.create(pos[0] - 1, pos[1])]: F* line numbers begin at 1.
    [Position.create] stores its two arguments; the one value it
    replaces, [Number.MAX_VALUE], lies beyond the integers [JSON.parse]
    yields in the embedding. *)
Definition mkPosition (pos : jsval) : completion Position :=
  and_then_c (get_index pos 0) (fun p0 =>
  and_then_c (minus_one p0) (fun l =>
  and_then_c (get_index pos 1) (fun p1 =>
  Normal (mkPos l p1)))).

Definition uinteger_MAX_VALUE : Z := 2147483647.

Definition is_uinteger (n : Z) : bool :=
  ((0 <=? n) && (n <=? uinteger_MAX_VALUE))%Z.

(** [Position.is] of the editor-protocol library. *)
Definition Position_is (p : Position) : bool :=
  match line p, character p with
  | Num l, Some (JNum c) => is_uinteger l && is_uinteger c
  | _, _ => false
  end.

(** [Range.create(one, two)] of the editor-protocol library, called on
    two positions: it raises an [Error] unless both are positions with
    unsigned-integer fields. *)
Definition Range_create (one two : Position) : M Range :=
  if Position_is one && Position_is two
  then ret (mkRange one two)
  else lift (Throw Error).

Definition handleIdeProtocolInfo (textDocument : TextDocument) (r : json) : M unit :=
  console_log "FStar ide returned protocol info".

Definition handleIdeProgress (textDocument : TextDocument) (contents : jsval) : M unit :=
  stage <- lift (get_prop contents "stage") ;;
  is_ok <- lift (loose_eq stage "full-buffer-fragment-ok") ;;
  if is_ok then
    rng <- lift (get_prop contents "ranges") ;;
    beg <- lift (get_prop rng "beg") ;;
    p1 <- lift (mkPosition beg) ;;
    en <- lift (get_prop rng "end") ;;
    p2 <- lift (mkPosition en) ;;
    ok_range <- Range_create p1 p2 ;;
    sendStatusOk (mkStatusOk (uri textDocument) [ok_range])
  else ret tt.

(** The body of the callback given to [response.forEach]. *)
Definition reportIdeError (textDocument : TextDocument) (err : json) : M unit :=
  ranges <- lift (get_prop (Some err) "ranges") ;;
  rng <- lift (get_index ranges 0) ;;
  beg <- lift (get_prop rng "beg") ;;
  p1 <- lift (mkPosition beg) ;;
  en <- lift (get_prop rng "end") ;;
  p2 <- lift (mkPosition en) ;;
  msg <- lift (get_prop (Some err) "message") ;;
  sendDiagnostics (uri textDocument)
    [mkDiagnostic DiagnosticSeverity.Error (mkRange p1 p2) msg].

(** [response.forEach(...)]: only an array has a [forEach] to call. *)
Definition handleIdeFailure (textDocument : TextDocument) (response : jsval) : M unit :=
  match response with
  | Some (JArr errs) => forEach errs (reportIdeError textDocument)
  | _ => lift (Throw TypeError)
  end.

Definition handleIdeSuccess (textDocument : TextDocument) (response : jsval) : M unit :=
  ret tt.

(** ** The response dispatcher *)

Definition JSON_parse (data : string) : M json :=
  match JSON.parse data with
  | JSON.POk r => ret r
  | JSON.PSyntax => lift (Throw SyntaxError)
  | JSON.PUnsupported => lift Unmodelled
  end.

(** [r.k == lit] *)
Definition prop_is (r : json) (k lit : string) : M bool :=
  v <- lift (get_prop (Some r) k) ;;
  lift (loose_eq v lit).

(** [a && b], the right operand evaluated only when the left holds. *)
Definition and_then (a b : M bool) : M bool :=
  x <- a ;; if x then b else ret false.

Definition handleOneResponseForDocument (textDocument : TextDocument) (data : string)
  : M unit :=
  if String.eqb data "" then ret tt else
  r <- JSON_parse data ;;
  is_info <- prop_is r "kind" "protocol-info" ;;
  if is_info then
    note_route ToProtocolInfo ;;;
    handleIdeProtocolInfo textDocument r
  else
  is_progress <- and_then (prop_is r "kind" "message") (prop_is r "level" "progress") ;;
  if is_progress then
    note_route ToProgress ;;;
    contents <- lift (get_prop (Some r) "contents") ;;
    handleIdeProgress textDocument contents
  else
  is_failure <- and_then (prop_is r "kind" "response") (prop_is r "status" "failure") ;;
  if is_failure then
    note_route ToFailure ;;;
    response <- lift (get_prop (Some r) "response") ;;
    if falsy response then ret tt
    else handleIdeFailure textDocument response
  else
  is_success <- and_then (prop_is r "kind" "response") (prop_is r "status" "success") ;;
  if is_success then
    note_route ToSuccess ;;;
    response <- lift (get_prop (Some r) "response") ;;
    handleIdeSuccess textDocument response
  else
    note_route ToUnhandled ;;;
    kind <- lift (get_prop (Some r) "kind") ;;
    text <- lift (to_string_val kind) ;;
    console_log ("Unhandled response: " +:+ text).

(** [data.split('\n')] *)
Fixpoint split_newline (data : string) : list string :=
  match data with
  | EmptyString => [EmptyString]
  | String c rest =>
      if Ascii.eqb c "010" then EmptyString :: split_newline rest
      else
        match split_newline rest with
        | l :: ls => String c l :: ls
        | [] => [String c EmptyString]
        end
  end.

Definition handleFStarResponseForDocument (textDocument : TextDocument) (data : string)
  : M unit :=
  let lines := split_newline data in
  forEach lines (fun line => handleOneResponseForDocument textDocument line).

(** ** The session registry and the query encoder *)

Definition set_documentState (ds : gmap string IDEState) : M unit :=
  fun w => (Normal tt,
            mkWorld (documentSettings w) ds (processes w) (sent w) (routed w)).

Definition set_documentSettings (st : gmap string ExampleSettings) : M unit :=
  fun w => (Normal tt,
            mkWorld st (documentState w) (processes w) (sent w) (routed w)).

Definition set_processes (ps : list ChildProcess) : M unit :=
  fun w => (Normal tt,
            mkWorld (documentSettings w) (documentState w) ps (sent w) (routed w)).

Definition get_world : M World := fun w => (Normal w, w).

Definition write_to (text : string) (p : ChildProcess) : ChildProcess :=
  mkProc (spawn_file p) (spawn_args p) (spawn_cwd p) (stdin p ++ [text])
         (stdout_listener p) (running p).

Definition listen_for (doc : TextDocument) (p : ChildProcess) : ChildProcess :=
  mkProc (spawn_file p) (spawn_args p) (spawn_cwd p) (stdin p) (Some doc) (running p).

Definition exited (p : ChildProcess) : ChildProcess :=
  mkProc (spawn_file p) (spawn_args p) (spawn_cwd p) (stdin p) (stdout_listener p) false.

(** [proc?.stdin?.write(text)] *)
Definition stdin_write (proc : nat) (text : string) : M unit :=
  w <- get_world ;;
  set_processes (alter (write_to text) proc (processes w)).

(** [cp.spawn(file, args, {cwd})]: a new running subprocess; its handle
    is its index in the table.  A program that cannot be started is
    reported by a later event, which the embedding does not cover. *)
Definition spawn (file : string) (args : list string) (cwd : string) : M nat :=
  w <- get_world ;;
  set_processes (processes w ++ [mkProc file args cwd [] None true]) ;;;
  ret (length (processes w)).

(** [proc.stdout.on('data', listener)], the listener serving [doc]. *)
Definition stdout_on_data (proc : nat) (doc : TextDocument) : M unit :=
  w <- get_world ;;
  set_processes (alter (listen_for doc) proc (processes w)).

(** The query object [msg] is given by its properties. *)
Definition sendRequestForDocument (textDocument : TextDocument)
  (msg : list (string * json)) : M unit :=
  w <- get_world ;;
  match documentState w !! uri textDocument with
  | None => ret tt
  | Some doc_state =>
      let qid := last_query_id doc_state in
      set_documentState
        (<[uri textDocument := mkIDEState (fstar_ide doc_state) (qid + 1)]>
           (documentState w)) ;;;
      let msg' := set_prop "query-id" (JStr (EmptyString +:+ pretty (qid + 1))) msg in
      let text := JSON.stringify (JObj msg') in
      stdin_write (fstar_ide doc_state) text ;;;
      stdin_write (fstar_ide doc_state) (String "010" EmptyString)
  end.

(** The two query objects the server builds: [vfs_add] on open and
    [push_context] on every change. *)
Definition vfs_add_query (textDocument : TextDocument) : list (string * json) :=
  [("query", JStr "vfs-add");
   ("args", JObj [("filename", JNull); ("contents", JStr (getText textDocument))])].

Definition full_buffer_query (textDocument : TextDocument) : list (string * json) :=
  [("query", JStr "full-buffer");
   ("args", JObj [("kind", JStr "full"); ("code", JStr (getText textDocument));
                  ("line", JNum 0); ("column", JNum 0)])].

Section Lifecycle.

(** [URI.parse(u).fsPath], [path.dirname] and [path.basename] belong to
    the platform libraries. *)
Variable fsPath : string -> string.
Variable dirname : string -> string.
Variable basename : string -> string.

Definition onDidOpen (textDocument : TextDocument) : M unit :=
  let filePath := fsPath (uri textDocument) in
  let docDirectory := dirname filePath in
  let filename := basename filePath in
  console_log ("onDidOpen(dir=" +:+ docDirectory +:+ ", file=" +:+ filename) ;;;
  fstar_ide <- spawn "fstar.exe" ["--ide"; filename] docDirectory ;;
  w <- get_world ;;
  set_documentState
    (<[uri textDocument := mkIDEState fstar_ide 0]> (documentState w)) ;;;
  stdout_on_data fstar_ide textDocument ;;;
  let vfs_add := vfs_add_query textDocument in
  sendRequestForDocument textDocument vfs_add.

Definition onDidClose (textDocument : TextDocument) : M unit :=
  w <- get_world ;;
  set_documentSettings (delete (uri textDocument) (documentSettings w)).

Definition validateFStarDocument (textDocument : TextDocument) : M unit :=
  console_log ("ValidateFStarDocument( " +:+ uri textDocument +:+ ")") ;;;
  sendDiagnostics (uri textDocument) [] ;;;
  sendStatusClear (mkStatusClear (uri textDocument)) ;;;
  let push_context := full_buffer_query textDocument in
  sendRequestForDocument textDocument push_context.

Definition onDidChangeContent (textDocument : TextDocument) : M unit :=
  validateFStarDocument textDocument.

(** What can happen to the server: the three document events, a chunk
    of output from a subprocess, and a subprocess ending by itself. *)
Inductive Input : Type :=
| DidOpen (doc : TextDocument)
| DidChangeContent (doc : TextDocument)
| DidClose (doc : TextDocument)
| StdoutData (proc : nat) (chunk : string)
| ProcessExit (proc : nat).

Definition handle (i : Input) : M unit :=
  match i with
  | DidOpen doc => onDidOpen doc
  | DidChangeContent doc => onDidChangeContent doc
  | DidClose doc => onDidClose doc
  | StdoutData proc chunk =>
      w <- get_world ;;
      match processes w !! proc with
      | Some p =>
          match stdout_listener p with
          | Some doc => handleFStarResponseForDocument doc chunk
          | None => ret tt
          end
      | None => ret tt
      end
  | ProcessExit proc =>
      w <- get_world ;;
      set_processes (alter exited proc (processes w))
  end.

(** The state after an input, whether its handler returned or raised:
    the effects performed before an exception stay. *)
Definition step (w : World) (i : Input) : World := snd (handle i w).

Definition run (w : World) (inputs : list Input) : World := fold_left step inputs w.

(** The states of the runs the embedding describes. *)
Inductive reachable : World -> Prop :=
| reachable_initial : reachable initial
| reachable_step w i :
    reachable w -> fst (handle i w) <> Unmodelled -> reachable (step w i).

End Lifecycle.

(** ** Messages of the shapes the protocol declares

    The definitions of this part follow the words of the specification
    and the [IdeError] interface; the theorems compare the handlers with
    them. *)

Definition add_sent (w : World) (events : list Event) : World :=
  mkWorld (documentSettings w) (documentState w) (processes w)
          (sent w ++ events) (routed w).

(** An own property of an object; [undefined] on anything else. *)
Definition field (v : json) (k : string) : jsval :=
  match v with
  | JObj ms => assoc k ms
  | _ => None
  end.

(** A position in the numbering of the tool: lines count from 1,
    columns from 0. *)
Definition one_based (p : Z * Z) : Prop := 1 <= fst p /\ 0 <= snd p.

(** A one-based position that the editor protocol can carry once the
    line is shifted: both numbers fit its unsigned integers. *)
Definition valid_position (p : Z * Z) : Prop :=
  1 <= fst p <= uinteger_MAX_VALUE + 1 /\ 0 <= snd p <= uinteger_MAX_VALUE.

(** The remap rule of the specification:
    [editorLine = toolLine - 1; editorColumn = toolColumn]. *)
Definition spec_remap (p : Z * Z) : Position :=
  mkPos (Num (fst p - 1)) (Some (JNum (snd p))).

(** The [line, column] pair at the front of a position array. *)
Definition position_of (v : jsval) : option (Z * Z) :=
  match v with
  | Some (JArr (JNum l :: JNum c :: _)) => Some (l, c)
  | _ => None
  end.

(** The begin and end of a range object. *)
Definition range_of (v : jsval) : option ((Z * Z) * (Z * Z)) :=
  match v with
  | Some rng =>
      b ← position_of (field rng "beg");
      e ← position_of (field rng "end");
      Some (b, e)
  | None => None
  end.





Definition as_number (v : json) : option Z :=
  match v with
  | JNum n => Some n
  | _ => None
  end.

Definition as_numbers (v : jsval) : option (list Z) :=
  match v with
  | Some (JArr items) => mapM as_number items
  | _ => None
  end.





(** The state [w] after more messages were sent and more branches
    taken. *)
Definition extend (w : World) (events : list Event) (routes : list Route) : World :=
  mkWorld (documentSettings w) (documentState w) (processes w)
          (sent w ++ events) (routed w ++ routes).

(** [m] touches nothing but the two logs, and what it appends and how
    it completes do not depend on the state it starts from. *)
Definition writes {A : Type} (m : M A) (c : completion A)
  (events : list Event) (routes : list Route) : Prop :=
  forall w, m w = (c, extend w events routes).

Definition sends_only {A : Type} (m : M A) : Prop :=
  exists c events, writes m c events [].

Fixpoint no_newline (s : string) : bool :=
  match s with
  | EmptyString => true
  | String c r => negb (Ascii.eqb c "010") && no_newline r
  end.

(** A chunk of output made of the given segments, each ended by a
    newline. *)
Fixpoint newline_terminated (segments : list string) : string :=
  match segments with
  | [] => EmptyString
  | l :: ls => l +:+ String "010" (newline_terminated ls)
  end.

Definition non_empty (l : string) : bool := negb (String.eqb l EmptyString).

(** A non-empty segment that holds one JSON text. *)
Definition json_line (l : string) : Prop :=
  l <> EmptyString /\ no_newline l = true /\ exists r, JSON.parse l = JSON.POk r.

(** [r.k1 == lit1 && r.k2 == lit2] on an object [r]: the second
    comparison is made only when the first holds. *)
Definition both (r : json) (k1 lit1 k2 lit2 : string) : completion bool :=
  and_then_c (loose_eq (field r k1) lit1) (fun x =>
  if x then loose_eq (field r k2) lit2 else Normal false).

(** The dispatcher handles the segment without raising, whatever the
    state. *)
Definition handled (textDocument : TextDocument) (l : string) : Prop :=
  forall w, fst (handleOneResponseForDocument textDocument l w) = Normal tt.

(** [m] takes at most one branch of the dispatch, and exactly one when
    it returns normally. *)
Definition routes_once (m : M unit) : Prop :=
  exists c events routes,
    writes m c events routes
    /\ (length routes <= 1)%nat
    /\ (c = Normal tt -> length routes = 1%nat).

(** The query object as it is sent when it is given the identifier [n]. *)
Definition stamped (n : Z) (msg : list (string * json)) : string :=
  JSON.stringify (JObj (set_prop "query-id" (JStr (pretty n)) msg)).

(** What a session writes for the queries [msgs], in order, when its
    counter stands at [n]: each query followed by a line terminator, the
    first with the identifier [n + 1], the next with [n + 2], and so on. *)
Fixpoint numbered (n : Z) (msgs : list (list (string * json))) : list string :=
  match msgs with
  | [] => []
  | msg :: msgs' =>
      stamped (n + 1) msg :: String "010" EmptyString :: numbered (n + 1) msgs'
  end.

(** Every registered session owns a subprocess of the table whose input
    so far is the numbered queries of the session, as many as its
    counter says; and no two sessions own the same subprocess. *)
Definition sessions_numbered (w : World) : Prop :=
  (forall u st,
     documentState w !! u = Some st ->
     exists p msgs,
       processes w !! fstar_ide st = Some p
       /\ stdin p = numbered 0 msgs
       /\ last_query_id st = Z.of_nat (length msgs))
  /\ (forall u1 u2 st1 st2,
        documentState w !! u1 = Some st1 ->
        documentState w !! u2 = Some st2 ->
        fstar_ide st1 = fstar_ide st2 -> u1 = u2).

(** A POSIX reading of the three platform functions, for the examples:
    the path of a [file://] URI, the text before its last slash and the
    text after it. *)
Definition example_fsPath (u : string) : string :=
  match JSON.strip_prefix "file://" u with
  | Some path => path
  | None => u
  end.

Fixpoint no_slash (s : string) : bool :=
  match s with
  | EmptyString => true
  | String c rest => negb (Ascii.eqb c "/") && no_slash rest
  end.

Fixpoint example_basename (path : string) : string :=
  match path with
  | EmptyString => EmptyString
  | String c rest =>
      if Ascii.eqb c "/" then example_basename rest
      else if no_slash rest then path else example_basename rest
  end.

Fixpoint before_last_slash (s : string) : string :=
  match s with
  | EmptyString => EmptyString
  | String c rest =>
      if no_slash rest then EmptyString else String c (before_last_slash rest)
  end.

Definition example_dirname (path : string) : string :=
  if no_slash path then "."
  else
    match before_last_slash path with
    | EmptyString => "/"
    | d => d
    end.

(** The JSON texts of the examples are written with ['] where the text
    has a double quote. *)
Fixpoint dq (s : string) : string :=
  match s with
  | EmptyString => EmptyString
  | String c r => String (if Ascii.eqb c "'" then "034"%char else c) (dq r)
  end.

(** The document and the output lines of the examples. *)
Definition doc_a : TextDocument := mkTextDocument "file:///a.fst" "let x = 1".

Definition line_info : string := dq "{'kind':'protocol-info','version':2}".

Definition line_progress : string :=
  dq "{'kind':'message','level':'progress','contents':{'stage':'full-buffer-fragment-ok','ranges':{'beg':[3,0],'end':[5,2]}}}".

Definition line_failure : string :=
  dq "{'kind':'response','status':'failure','response':[{'message':'syntax error','ranges':[{'beg':[1,4],'end':[1,5]}]}]}".

Definition line_failure_no_range : string :=
  dq "{'kind':'response','status':'failure','response':[{'message':'m','ranges':[]}]}".

Definition line_not_json : string := "Warning: not a JSON text".

(** The state after [doc_a] was opened, and after its content then
    changed. *)
Definition opened_a : World :=
  step example_fsPath example_dirname example_basename initial (DidOpen doc_a).

Definition changed_a : World :=
  step example_fsPath example_dirname example_basename opened_a (DidChangeContent doc_a).

(** ** Further readings of the source, for the properties of the last part *)

(** What the dispatcher may send for the document with URI [u]: a line on
    the console, a status-ok for [u] with one range whose two positions
    the editor-protocol library accepts, or a publication of one error
    diagnostic for [u]. *)
Definition dispatch_event (u : string) (e : Event) : bool :=
  match e with
  | ConsoleLog _ => true
  | StatusOkNotification m =>
      String.eqb (ok_uri m) u
      && match ok_ranges m with
         | [r] => Position_is (range_start r) && Position_is (range_end r)
         | _ => false
         end
  | StatusClearNotification _ => false
  | PublishDiagnostics u' ds =>
      String.eqb u' u
      && match ds with
         | [d] =>
             match severity d with
             | DiagnosticSeverity.Error => true
             | _ => false
             end
         | _ => false
         end
  end.

(** [m] touches nothing but the two logs, and all it sends is of the
    kinds above. *)
Definition writes_for {A : Type} (u : string) (m : M A) : Prop :=
  exists c events routes,
    writes m c events routes /\ forallb (dispatch_event u) events = true.

(** [Position.create(pos[0] - 1, pos[1])] on an array of numbers: a
    missing first component gives the line [NaN], a missing second one
    the character [undefined]. *)
Definition typed_position (pos : list Z) : Position :=
  mkPos (match pos !! 0%nat with
         | Some l => Num (l - 1)
         | None => NaN
         end)
        (JNum <$> pos !! 1%nat).



(** The text a subprocess reads: the chunks written to its input, one
    after the other. *)
Fixpoint written (chunks : list string) : string :=
  match chunks with
  | [] => EmptyString
  | c :: chunks' => c +:+ written chunks'
  end.

(** The queries [msgs] as they are stamped when the counter stands at
    [n]. *)
Fixpoint query_lines (n : Z) (msgs : list (list (string * json))) : list string :=
  match msgs with
  | [] => []
  | msg :: msgs' => stamped (n + 1) msg :: query_lines (n + 1) msgs'
  end.

(** The four messages every validation sends before its query. *)
Definition validation_events (textDocument : TextDocument) : list Event :=
  [ConsoleLog ("ValidateFStarDocument( " +:+ uri textDocument +:+ ")");
   PublishDiagnostics (uri textDocument) [];
   ConsoleLog "Sending statusClear notification: [object Object]";
   StatusClearNotification (mkStatusClear (uri textDocument))].

(** The input is about the document with URI [u], or ends the
    subprocess [proc]. *)
Definition concerns (u : string) (proc : nat) (i : Input) : Prop :=
  match i with
  | DidOpen d | DidChangeContent d | DidClose d => uri d = u
  | StdoutData _ _ => False
  | ProcessExit p => p = proc
  end.

(** No registered session owns the subprocess [proc]. *)
Definition unowned (w : World) (proc : nat) : Prop :=
  forall u st, documentState w !! u = Some st -> fstar_ide st <> proc.

Definition is_open (i : Input) : bool :=
  match i with
  | DidOpen _ => true
  | _ => false
  end.

(** The URIs of the documents opened by the inputs. *)
Fixpoint opened_uris (inputs : list Input) : gset string :=
  match inputs with
  | [] => ∅
  | DidOpen d :: inputs' => {[uri d]} ∪ opened_uris inputs'
  | _ :: inputs' => opened_uris inputs'
  end.

(** Every registered session's subprocess listens for a document that
    has the URI of the session. *)
Definition listeners_attributed (w : World) : Prop :=
  forall u st,
    documentState w !! u = Some st ->
    exists d,
      stdout_listener <$> processes w !! fstar_ide st = Some (Some d)
      /\ uri d = u.

(** The record [p'] is the subprocess [p] at a later time: the same
    program, arguments and directory, running as before. *)
Definition same_subprocess (p p' : ChildProcess) : Prop :=
  spawn_file p' = spawn_file p
  /\ spawn_args p' = spawn_args p
  /\ spawn_cwd p' = spawn_cwd p
  /\ running p' = running p.

Definition doc_b : TextDocument := mkTextDocument "file:///b.fst" "let y = 2".

(** ** The initialize and configuration handlers

    The three capability flags and [globalSettings] are module-level
    variables; the handlers read the parameters the client sends, which
    are JSON values. The property names read here ([capabilities],
    [workspace], [configuration], [workspaceFolders], [textDocument],
    [publishDiagnostics], [relatedInformation], [settings],
    [languageServerExample]) are no members of a built-in prototype
    either, so [get_prop] gives their reads. *)

Record Config : Type := mkConfig {
  hasConfigurationCapability : bool;
  hasWorkspaceFolderCapability : bool;
  hasDiagnosticRelatedInformationCapability : bool;
  globalSettings : json
}.

Definition defaultSettings : json := JObj [("maxNumberOfProblems", JNum 1000)].

Definition initial_config : Config := mkConfig false false false defaultSettings.

Definition K (A : Type) : Type := Config -> completion A * Config.

Definition bindK {A B : Type} (m : K A) (f : A -> K B) : K B :=
  fun c =>
    match m c with
    | (Normal a, c') => f a c'
    | (Throw e, c') => (Throw e, c')
    | (Unmodelled, c') => (Unmodelled, c')
    end.

Definition evalK {A : Type} (v : completion A) : K A := fun c => (v, c).

Definition set_hasConfigurationCapability (b : bool) : K unit :=
  fun c => (Normal tt,
            mkConfig b (hasWorkspaceFolderCapability c)
                     (hasDiagnosticRelatedInformationCapability c) (globalSettings c)).

Definition set_hasWorkspaceFolderCapability (b : bool) : K unit :=
  fun c => (Normal tt,
            mkConfig (hasConfigurationCapability c) b
                     (hasDiagnosticRelatedInformationCapability c) (globalSettings c)).

Definition set_hasDiagnosticRelatedInformationCapability (b : bool) : K unit :=
  fun c => (Normal tt,
            mkConfig (hasConfigurationCapability c) (hasWorkspaceFolderCapability c)
                     b (globalSettings c)).

Definition set_globalSettings (v : json) : K unit :=
  fun c => (Normal tt,
            mkConfig (hasConfigurationCapability c) (hasWorkspaceFolderCapability c)
                     (hasDiagnosticRelatedInformationCapability c) v).

(** [!!v] *)
Definition truthy (v : jsval) : bool := negb (falsy v).

(** [!!(o.k1 && !!o.k1.k2)] *)
Definition has_nested (o : jsval) (k1 k2 : string) : completion bool :=
  and_then_c (get_prop o k1) (fun a =>
  if falsy a then Normal false
  else and_then_c (get_prop a k2) (fun b => Normal (truthy b))).

(** [!!(o.k1 && o.k1.k2 && o.k1.k2.k3)] *)
Definition has_nested3 (o : jsval) (k1 k2 k3 : string) : completion bool :=
  and_then_c (get_prop o k1) (fun a =>
  if falsy a then Normal false
  else and_then_c (get_prop a k2) (fun b =>
  if falsy b then Normal false
  else and_then_c (get_prop b k3) (fun d => Normal (truthy d)))).

(** [TextDocumentSyncKind.Incremental] of the editor-protocol library. *)
Definition TextDocumentSyncKind_Incremental : Z := 2.

(** The result object, after the optional assignment of
    [result.capabilities.workspace]. *)
Definition InitializeResult (workspaceFolders : bool) : json :=
  let capabilities :=
    [("textDocumentSync", JNum TextDocumentSyncKind_Incremental);
     ("completionProvider", JObj [("resolveProvider", JBool true)])] in
  JObj [("capabilities",
         JObj (if workspaceFolders
               then set_prop "workspace"
                      (JObj [("workspaceFolders", JObj [("supported", JBool true)])])
                      capabilities
               else capabilities))].

Definition onInitialize (params : jsval) : K json :=
  bindK (evalK (get_prop params "capabilities")) (fun capabilities =>
  bindK (evalK (has_nested capabilities "workspace" "configuration")) (fun b1 =>
  bindK (set_hasConfigurationCapability b1) (fun _ =>
  bindK (evalK (has_nested capabilities "workspace" "workspaceFolders")) (fun b2 =>
  bindK (set_hasWorkspaceFolderCapability b2) (fun _ =>
  bindK (evalK (has_nested3 capabilities "textDocument" "publishDiagnostics"
                  "relatedInformation")) (fun b3 =>
  bindK (set_hasDiagnosticRelatedInformationCapability b3) (fun _ =>
  fun c => (Normal (InitializeResult (hasWorkspaceFolderCapability c)), c)))))))).

(** [documentSettings.clear()] empties the cache of the server state
    [w]; the other branch assigns
    [change.settings.languageServerExample || defaultSettings]. *)
Definition onDidChangeConfiguration (change : jsval) (c : Config) (w : World)
  : completion unit * (Config * World) :=
  if hasConfigurationCapability c then
    (Normal tt,
     (c, mkWorld ∅ (documentState w) (processes w) (sent w) (routed w)))
  else
    match and_then_c (get_prop change "settings")
            (fun settings => get_prop settings "languageServerExample") with
    | Normal v =>
        (Normal tt,
         (snd (set_globalSettings
                 (match v with
                  | Some j => if falsy v then defaultSettings else j
                  | None => defaultSettings
                  end) c), w))
    | Throw e => (Throw e, (c, w))
    | Unmodelled => (Unmodelled, (c, w))
    end.

(** The initialize request and the configuration notifications a client
    sends, and the state after them (an exception leaves what was
    assigned before it). *)
Inductive ConfigInput : Type :=
| Initialize (params : jsval)
| DidChangeConfiguration (change : jsval).

Definition config_step (s : Config * World) (i : ConfigInput) : Config * World :=
  match i with
  | Initialize params => (snd (onInitialize params (fst s)), snd s)
  | DidChangeConfiguration change => snd (onDidChangeConfiguration change (fst s) (snd s))
  end.

Definition config_run (s : Config * World) (inputs : list ConfigInput)
  : Config * World :=
  fold_left config_step inputs s.

(** The value is [undefined] or [null]. *)
Definition nullish (v : jsval) : bool :=
  match v with
  | None | Some JNull => true
  | _ => false
  end.

(** The truthy [languageServerExample] values the notifications carry. *)
Fixpoint offered_settings (inputs : list ConfigInput) : list json :=
  match inputs with
  | [] => []
  | DidChangeConfiguration (Some change) :: inputs' =>
      match field change "settings" with
      | Some settings =>
          match field settings "languageServerExample" with
          | Some j =>
              if falsy (Some j) then offered_settings inputs'
              else j :: offered_settings inputs'
          | None => offered_settings inputs'
          end
      | None => offered_settings inputs'
      end
  | _ :: inputs' => offered_settings inputs'
  end.

(** Both numbers of the pair are integers a number holds exactly. *)
Definition safe_position (p : Z * Z) : Prop :=
  safe_integer (fst p) = true /\ safe_integer (snd p) = true.

(** Reading the property [k] where nothing can raise: [undefined] on
    anything but an object that has it. *)
Definition reads (v : jsval) (k : string) : jsval :=
  match v with
  | Some j => field j k
  | None => None
  end.

(** The value at the end of a chain of property names. *)
Definition path (v : jsval) (ks : list string) : jsval := fold_left reads ks v.

(** [v || defaultSettings] *)
Definition or_default (v : jsval) : json :=
  match v with
  | Some j => if falsy v then defaultSettings else j
  | None => defaultSettings
  end.

Definition clear_documentSettings (w : World) : World :=
  mkWorld ∅ (documentState w) (processes w) (sent w) (routed w).

Definition params_with_configuration : jsval :=
  Some (JObj [("capabilities",
               JObj [("workspace", JObj [("configuration", JBool true)])])]).

Definition params_without_configuration : jsval :=
  Some (JObj [("capabilities", JObj [("textDocument", JObj [])])]).

Definition change_with_settings : jsval :=
  Some (JObj [("settings",
               JObj [("languageServerExample",
                      JObj [("maxNumberOfProblems", JNum 5)])])]).

(** ** Properties *)

Section Remap.

Lemma mkPosition_pair (l c : Z) (rest : list json) :
  mkPosition (Some (JArr (JNum l :: JNum c :: rest))) = Normal (spec_remap (l, c)).
Proof. reflexivity. Qed.

Lemma mkPosition_position_of (v : jsval) (p : Z * Z) :
  position_of v = Some p -> mkPosition v = Normal (spec_remap p).
Proof.
  unfold position_of. intros H.
  repeat case_match; simplify_eq. apply mkPosition_pair.
Qed.

(** C2. For a valid 1-based (line, column) pair - a line from 1 and a
    column from 0 whose images are unsigned integers of the editor
    protocol - the remap yields (line - 1, column): the line goes down
    by one, the column is kept, and the result is a position the editor
    protocol accepts; and with the column fixed, two valid lines with
    the same image are the same line. *)
Theorem mkPosition_remaps_line_only (l c : Z) :
  valid_position (l, c) ->
  mkPosition (Some (JArr [JNum l; JNum c]))
    = Normal (mkPos (Num (l - 1)) (Some (JNum c)))
  /\ Position_is (mkPos (Num (l - 1)) (Some (JNum c))) = true
  /\ forall l' : Z,
       valid_position (l', c) ->
       mkPosition (Some (JArr [JNum l'; JNum c]))
         = mkPosition (Some (JArr [JNum l; JNum c])) ->
       l' = l.
Proof.
  intros Hv. split; [reflexivity |]. split.
  - unfold valid_position, uinteger_MAX_VALUE in Hv. cbn [fst snd] in Hv.
    unfold Position_is, is_uinteger, uinteger_MAX_VALUE. cbn [line character].
    apply andb_true_iff; split; apply andb_true_iff; split; lia.
  - intros l' _ H. rewrite !mkPosition_pair in H.
    unfold spec_remap in H. simpl in H. injection H as H. lia.
Qed.

Lemma mkPosition_remaps_line_only_witness :
  mkPosition (Some (JArr [JNum 3; JNum 0])) = Normal (mkPos (Num 2) (Some (JNum 0)))
  /\ Position_is (mkPos (Num 2) (Some (JNum 0))) = true
  /\ forall l' : Z,
       valid_position (l', 0) ->
       mkPosition (Some (JArr [JNum l'; JNum 0]))
         = mkPosition (Some (JArr [JNum 3; JNum 0])) ->
       l' = 3.
Proof.
  apply (mkPosition_remaps_line_only 3 0).
  unfold valid_position, uinteger_MAX_VALUE. simpl. lia.
Defined.

End Remap.

Section Translators.

Variable textDocument : TextDocument.



Lemma range_of_field (rng : json) (b e : Z * Z) :
  range_of (Some rng) = Some (b, e) ->
  get_prop (Some rng) "beg" = Normal (field rng "beg")
  /\ get_prop (Some rng) "end" = Normal (field rng "end")
  /\ position_of (field rng "beg") = Some b
  /\ position_of (field rng "end") = Some e.
Proof.
  unfold range_of. intros H.
  destruct (position_of (field rng "beg")) as [b'|] eqn:Hb; simpl in H; [|done].
  destruct (position_of (field rng "end")) as [e'|] eqn:He; simpl in H; [|done].
  simplify_eq.
  destruct rng; simpl in *; try done.
Qed.

Lemma valid_position_is (p : Z * Z) :
  valid_position p -> Position_is (spec_remap p) = true.
Proof.
  unfold valid_position, Position_is, spec_remap, is_uinteger, uinteger_MAX_VALUE.
  destruct p as [l c]. simpl. intros [? ?].
  apply andb_true_iff; split; apply andb_true_iff; split; lia.
Qed.





End Translators.



Section TypedEntries.

Variable textDocument : TextDocument.





End TypedEntries.


Section Progress.

Variable textDocument : TextDocument.

Lemma sendStatusOk_events (msg : StatusOkMessage) (w : World) :
  sendStatusOk msg w
    = (Normal tt,
       add_sent w [ConsoleLog "Sending statusOk notification: [object Object]";
                   StatusOkNotification msg]).
Proof.
  unfold sendStatusOk, bind, console_log, sendNotification_statusOk, emit, add_sent.
  simpl. by rewrite <- app_assoc.
Qed.

Lemma get_prop_field (c : json) (k : string) :
  c <> JNull -> get_prop (Some c) k = Normal (field c k).
Proof. destruct c; done. Qed.

Lemma loose_eq_raises (v : jsval) (lit : string) (x : exn) :
  loose_eq v lit = Throw x -> x = TypeError.
Proof.
  destruct v as [[| | | |items|ms]|]; try done; unfold loose_eq;
    by destruct (to_string _); intros ?; simplify_eq.
Qed.

Lemma loose_eq_modelled (v : jsval) (lit : string) : loose_eq v lit <> Unmodelled.
Proof.
  destruct v as [[| | | |items|ms]|]; try done; unfold loose_eq;
    by destruct (to_string _).
Qed.

(** C5. A progress message whose contents are present and whose stage
    can be compared: when the stage equals "full-buffer-fragment-ok" and
    [contents.ranges] carries a valid begin and end, the handler emits
    exactly one status-ok notification, with the document's URI and the
    one range whose begin and end are the remapped positions; for any
    other stage the handler has no effect at all.  A stage that cannot
    be compared (an object with a member [toString] of its own) makes
    the comparison raise, and nothing is sent. *)
Theorem handleIdeProgress_status_ok (contents : json) (w : World) :
  contents <> JNull ->
  match loose_eq (field contents "stage") "full-buffer-fragment-ok" with
  | Normal true =>
      forall b e : Z * Z,
        range_of (field contents "ranges") = Some (b, e) ->
        valid_position b -> valid_position e ->
        handleIdeProgress textDocument (Some contents) w
          = (Normal tt,
             add_sent w
               [ConsoleLog "Sending statusOk notification: [object Object]";
                StatusOkNotification
                  (mkStatusOk (uri textDocument)
                     [mkRange (spec_remap b) (spec_remap e)])])
  | Normal false =>
      handleIdeProgress textDocument (Some contents) w = (Normal tt, w)
  | Throw x =>
      x = TypeError
      /\ handleIdeProgress textDocument (Some contents) w = (Throw TypeError, w)
  | Unmodelled => False
  end.
Proof.
  intros Hc.
  destruct (loose_eq (field contents "stage") "full-buffer-fragment-ok")
    as [[|]|x|] eqn:Hs.
  - intros b e Hr Hvb Hve.
    unfold handleIdeProgress, bind, lift.
    rewrite (get_prop_field _ "stage" Hc), Hs, (get_prop_field _ "ranges" Hc).
    destruct (field contents "ranges") as [rng|] eqn:Hrng; [|done].
    destruct (range_of_field _ _ _ Hr) as (Hgb & Hge & Hb & He).
    cbv beta iota.
    rewrite Hgb, (mkPosition_position_of _ _ Hb). cbv beta iota.
    rewrite Hge, (mkPosition_position_of _ _ He). cbv beta iota.
    unfold Range_create.
    rewrite (valid_position_is _ Hvb), (valid_position_is _ Hve).
    cbn [andb ret]. apply sendStatusOk_events.
  - unfold handleIdeProgress, bind, lift.
    rewrite (get_prop_field _ "stage" Hc), Hs. reflexivity.
  - assert (x = TypeError) as -> by (by apply loose_eq_raises in Hs).
    split; [reflexivity |].
    unfold handleIdeProgress, bind, lift.
    rewrite (get_prop_field _ "stage" Hc), Hs. reflexivity.
  - by apply loose_eq_modelled in Hs.
Qed.

End Progress.

Lemma valid_position_3_0 : valid_position (3, 0).
Proof. unfold valid_position, uinteger_MAX_VALUE. simpl. lia. Qed.

Lemma valid_position_5_2 : valid_position (5, 2).
Proof. unfold valid_position, uinteger_MAX_VALUE. simpl. lia. Qed.

Lemma handleIdeProgress_status_ok_witness :
  handleIdeProgress doc_a
    (Some (JObj [("stage", JStr "full-buffer-fragment-ok");
                 ("ranges", JObj [("beg", JArr [JNum 3; JNum 0]);
                                  ("end", JArr [JNum 5; JNum 2])])]))
    initial
  = (Normal tt,
     add_sent initial
       [ConsoleLog "Sending statusOk notification: [object Object]";
        StatusOkNotification
          (mkStatusOk "file:///a.fst"
             [mkRange (mkPos (Num 2) (Some (JNum 0))) (mkPos (Num 4) (Some (JNum 2)))])])
  /\ handleIdeProgress doc_a (Some (JObj [("stage", JStr "full-buffer-started")])) initial
     = (Normal tt, initial).
Proof.
  split.
  - exact (handleIdeProgress_status_ok doc_a
             (JObj [("stage", JStr "full-buffer-fragment-ok");
                    ("ranges", JObj [("beg", JArr [JNum 3; JNum 0]);
                                     ("end", JArr [JNum 5; JNum 2])])])
             initial ltac:(discriminate) (3, 0) (5, 2) eq_refl
             valid_position_3_0 valid_position_5_2).
  - exact (handleIdeProgress_status_ok doc_a
             (JObj [("stage", JStr "full-buffer-started")])
             initial ltac:(discriminate)).
Defined.

(** C5, the claim as the specification words it. A routed progress
    message of the stage "full-buffer-fragment-ok" that carries no
    [ranges], or whose line numbers are not 1-based, gets no status-ok
    notification: the handler raises and nothing is sent. *)
Lemma progress_message_without_status_ok :
  handleOneResponseForDocument doc_a
    (dq "{'kind':'message','level':'progress','contents':{'stage':'full-buffer-fragment-ok'}}")
    initial
  = (Throw TypeError,
     mkWorld ∅ ∅ [] [] [ToProgress])
  /\ handleOneResponseForDocument doc_a
       (dq "{'kind':'message','level':'progress','contents':{'stage':'full-buffer-fragment-ok','ranges':{'beg':[0,0],'end':[0,5]}}}")
       initial
     = (Throw Error,
        mkWorld ∅ ∅ [] [] [ToProgress]).
Proof. split; by vm_compute. Qed.

Section Writers.

Lemma extend_nil (w : World) : extend w [] [] = w.
Proof. destruct w. unfold extend. simpl. by rewrite !app_nil_r. Qed.

Lemma extend_extend (w : World) (e1 e2 : list Event) (r1 r2 : list Route) :
  extend (extend w e1 r1) e2 r2 = extend w (e1 ++ e2)%list (r1 ++ r2)%list.
Proof. unfold extend. simpl. by rewrite !app_assoc. Qed.

Lemma writes_ret {A : Type} (a : A) : writes (ret a) (Normal a) [] [].
Proof. intros w. unfold ret. by rewrite extend_nil. Qed.

Lemma writes_lift {A : Type} (c : completion A) : writes (lift c) c [] [].
Proof. intros w. unfold lift. by rewrite extend_nil. Qed.

Lemma writes_emit (e : Event) : writes (emit e) (Normal tt) [e] [].
Proof. intros w. unfold emit, extend. by rewrite app_nil_r. Qed.

Lemma writes_note_route (r : Route) : writes (note_route r) (Normal tt) [] [r].
Proof. intros w. unfold note_route, extend. by rewrite app_nil_r. Qed.

Lemma writes_bind {A B : Type} (m : M A) (f : A -> M B) (a : A)
  (c : completion B) (e1 e2 : list Event) (r1 r2 : list Route) :
  writes m (Normal a) e1 r1 -> writes (f a) c e2 r2 ->
  writes (bind m f) c (e1 ++ e2)%list (r1 ++ r2)%list.
Proof. intros Hm Hf w. unfold bind. by rewrite Hm, Hf, extend_extend. Qed.

Lemma writes_bind_throw {A B : Type} (m : M A) (f : A -> M B) (x : exn)
  (e1 : list Event) (r1 : list Route) :
  writes m (Throw x) e1 r1 -> writes (bind m f) (Throw x) e1 r1.
Proof. intros Hm w. unfold bind. by rewrite Hm. Qed.

Lemma writes_bind_unmodelled {A B : Type} (m : M A) (f : A -> M B)
  (e1 : list Event) (r1 : list Route) :
  writes m Unmodelled e1 r1 -> writes (bind m f) Unmodelled e1 r1.
Proof. intros Hm w. unfold bind. by rewrite Hm. Qed.

Lemma sends_only_ret {A : Type} (a : A) : sends_only (ret a).
Proof. eexists _, _. apply writes_ret. Qed.

Lemma sends_only_lift {A : Type} (c : completion A) : sends_only (lift c).
Proof. eexists _, _. apply writes_lift. Qed.

Lemma sends_only_emit (e : Event) : sends_only (emit e).
Proof. eexists _, _. apply writes_emit. Qed.

Lemma sends_only_bind {A B : Type} (m : M A) (f : A -> M B) :
  sends_only m -> (forall a, sends_only (f a)) -> sends_only (bind m f).
Proof.
  intros (c & e1 & Hm) Hf. destruct c as [a| |].
  - destruct (Hf a) as (c' & e2 & Hfa). exists c', (e1 ++ e2)%list.
    change (@nil Route) with (@nil Route ++ [])%list. by eapply writes_bind.
  - eexists _, _. by apply writes_bind_throw.
  - eexists _, _. by apply writes_bind_unmodelled.
Qed.

Lemma sends_only_forEach {A : Type} (l : list A) (f : A -> M unit) :
  (forall a, sends_only (f a)) -> sends_only (forEach l f).
Proof.
  intros Hf. induction l as [|a l IH]; simpl.
  - apply sends_only_ret.
  - apply sends_only_bind; [apply Hf | by intros _].
Qed.

End Writers.

Ltac sends_only_step :=
  first
    [ apply sends_only_ret | apply sends_only_lift | apply sends_only_emit
    | apply sends_only_bind; [| intros ?]
    | match goal with |- sends_only (if ?b then _ else _) => destruct b end
    | match goal with |- sends_only (match ?x with _ => _ end) => destruct x end ].

Section Dispatcher.

Variable textDocument : TextDocument.

Lemma sends_only_sendStatusOk (msg : StatusOkMessage) : sends_only (sendStatusOk msg).
Proof. unfold sendStatusOk, console_log, sendNotification_statusOk. repeat sends_only_step. Qed.

Lemma sends_only_handleIdeProgress (contents : jsval) :
  sends_only (handleIdeProgress textDocument contents).
Proof.
  unfold handleIdeProgress, Range_create.
  repeat first [apply sends_only_sendStatusOk | sends_only_step].
Qed.

Lemma sends_only_reportIdeError (err : json) :
  sends_only (reportIdeError textDocument err).
Proof. unfold reportIdeError, sendDiagnostics. repeat sends_only_step. Qed.

Lemma sends_only_handleIdeFailure (response : jsval) :
  sends_only (handleIdeFailure textDocument response).
Proof.
  unfold handleIdeFailure.
  destruct response as [[| | | |errs|]|]; try apply sends_only_lift.
  apply sends_only_forEach, sends_only_reportIdeError.
Qed.

Lemma routes_once_bind_pure {A : Type} (m : M A) (f : A -> M unit) (a : A) :
  writes m (Normal a) [] [] -> routes_once (f a) -> routes_once (bind m f).
Proof.
  intros Hm (c & evs & rs & Hf & Hle & Hn).
  exists c, evs, rs. split; [|done].
  change evs with ([] ++ evs)%list. change rs with ([] ++ rs)%list.
  by eapply writes_bind.
Qed.

Lemma routes_once_note (r : Route) (m : M unit) :
  sends_only m -> routes_once (note_route r ;;; m).
Proof.
  intros (c & evs & Hm). exists c, evs, [r]. split; [|done].
  change evs with ([] ++ evs)%list. change [r] with ([r] ++ [])%list.
  eapply writes_bind; [apply writes_note_route | exact Hm].
Qed.

Lemma routes_once_throw {A : Type} (m : M A) (f : A -> M unit) (x : exn) :
  writes m (Throw x) [] [] -> routes_once (bind m f).
Proof.
  intros Hm. exists (Throw x), [], []. split; [by apply writes_bind_throw |].
  split; [simpl; lia | done].
Qed.

Lemma routes_once_unmodelled {A : Type} (m : M A) (f : A -> M unit) :
  writes m Unmodelled [] [] -> routes_once (bind m f).
Proof.
  intros Hm. exists Unmodelled, [], []. split; [by apply writes_bind_unmodelled |].
  split; [simpl; lia | done].
Qed.

Lemma routes_once_bind_c {A : Type} (m : M A) (f : A -> M unit) (c : completion A) :
  writes m c [] [] ->
  (forall a, c = Normal a -> routes_once (f a)) ->
  routes_once (bind m f).
Proof.
  intros Hm Hf. destruct c as [a|x|].
  - eapply routes_once_bind_pure; [exact Hm | by apply Hf].
  - by eapply routes_once_throw.
  - by apply routes_once_unmodelled.
Qed.

Lemma writes_prop_is (r : json) (k lit : string) :
  r <> JNull ->
  writes (prop_is r k lit) (loose_eq (field r k) lit) [] [].
Proof.
  intros Hr w. unfold prop_is, bind, lift.
  by rewrite (get_prop_field _ _ Hr), extend_nil.
Qed.

Lemma writes_and_then (r : json) (k1 lit1 k2 lit2 : string) :
  r <> JNull ->
  writes (and_then (prop_is r k1 lit1) (prop_is r k2 lit2))
    (both r k1 lit1 k2 lit2) [] [].
Proof.
  intros Hr w. unfold and_then, both, bind.
  rewrite (writes_prop_is r k1 lit1 Hr w), extend_nil.
  destruct (loose_eq (field r k1) lit1) as [[|]|x|]; cbv beta iota; cbn [and_then_c].
  - by rewrite (writes_prop_is r k2 lit2 Hr w), extend_nil.
  - reflexivity.
  - reflexivity.
  - reflexivity.
Qed.

Lemma writes_get_prop (r : json) (k : string) :
  r <> JNull -> writes (lift (get_prop (Some r) k)) (Normal (field r k)) [] [].
Proof. intros Hr. rewrite (get_prop_field _ _ Hr). apply writes_lift. Qed.

(** The dispatch on a parsed value. *)
Lemma routes_once_parsed (data : string) (r : json) :
  data <> EmptyString ->
  JSON.parse data = JSON.POk r ->
  routes_once (handleOneResponseForDocument textDocument data).
Proof.
  intros Hd Hp. unfold handleOneResponseForDocument.
  apply String.eqb_neq in Hd. rewrite Hd.
  eapply routes_once_bind_pure.
  { unfold JSON_parse. rewrite Hp. apply writes_ret. }
  assert (r = JNull \/ r <> JNull) as [->|Hr]
    by (destruct r; solve [by left | by right]).
  { eapply (routes_once_throw _ _ TypeError). intros w.
    unfold prop_is, bind, lift. simpl. by rewrite extend_nil. }
  eapply routes_once_bind_c; [by apply writes_prop_is |]. intros [|] _.
  { apply routes_once_note. unfold handleIdeProtocolInfo, console_log.
    apply sends_only_emit. }
  eapply routes_once_bind_c; [by apply writes_and_then |]. intros [|] _.
  { apply routes_once_note. apply sends_only_bind; [apply sends_only_lift |].
    intros ?. apply sends_only_handleIdeProgress. }
  eapply routes_once_bind_c; [by apply writes_and_then |]. intros [|] _.
  { apply routes_once_note. apply sends_only_bind; [apply sends_only_lift |].
    intros response. destruct (falsy response); [apply sends_only_ret |].
    apply sends_only_handleIdeFailure. }
  eapply routes_once_bind_c; [by apply writes_and_then |]. intros [|] _.
  { apply routes_once_note. apply sends_only_bind; [apply sends_only_lift |].
    intros ?. apply sends_only_ret. }
  apply routes_once_note. apply sends_only_bind; [apply sends_only_lift |].
  intros ?. apply sends_only_bind; [apply sends_only_lift |].
  intros ?. apply sends_only_emit.
Qed.

Lemma writes_empty_segment :
  writes (handleOneResponseForDocument textDocument EmptyString) (Normal tt) [] [].
Proof. intros w. unfold handleOneResponseForDocument. simpl. by rewrite extend_nil. Qed.

Lemma writes_syntax_error (data : string) :
  data <> EmptyString ->
  JSON.parse data = JSON.PSyntax ->
  writes (handleOneResponseForDocument textDocument data) (Throw SyntaxError) [] [].
Proof.
  intros Hd Hp w. unfold handleOneResponseForDocument.
  apply String.eqb_neq in Hd. rewrite Hd.
  unfold bind, JSON_parse. rewrite Hp. unfold lift. by rewrite extend_nil.
Qed.

(** A handled JSON line takes exactly one branch. *)
Lemma handled_line_routes (l : string) :
  json_line l -> handled textDocument l ->
  exists events route,
    writes (handleOneResponseForDocument textDocument l) (Normal tt) events [route].
Proof.
  intros (Hne & _ & r & Hp) Hh.
  destruct (routes_once_parsed l r Hne Hp) as (c & evs & rs & Hw & _ & Hn).
  specialize (Hh initial). rewrite Hw in Hh. simpl in Hh. subst c.
  specialize (Hn eq_refl).
  destruct rs as [|route [|? ?]]; try done.
  by exists evs, route.
Qed.

End Dispatcher.

Section Chunks.

Variable textDocument : TextDocument.

Lemma split_newline_segment (l rest : string) :
  no_newline l = true ->
  split_newline (l +:+ String "010" rest) = l :: split_newline rest.
Proof.
  induction l as [|c l IH]; intros Hl.
  - reflexivity.
  - simpl in Hl. apply andb_true_iff in Hl as [Hc Hl].
    apply negb_true_iff in Hc.
    change (String c l +:+ String "010" rest)
      with (String c (l +:+ String "010" rest)).
    cbn [split_newline]. rewrite Hc, (IH Hl). reflexivity.
Qed.

Lemma split_newline_terminated (segments : list string) :
  Forall (fun l => no_newline l = true) segments ->
  split_newline (newline_terminated segments) = (segments ++ [EmptyString])%list.
Proof.
  induction 1 as [|l ls Hl _ IH]; [reflexivity |].
  cbn [newline_terminated]. rewrite (split_newline_segment _ _ Hl), IH. reflexivity.
Qed.

Lemma forEach_app {A : Type} (l1 l2 : list A) (f : A -> M unit) (w : World) :
  forEach (l1 ++ l2) f w
  = match forEach l1 f w with
    | (Normal _, w') => forEach l2 f w'
    | (Throw e, w') => (Throw e, w')
    | (Unmodelled, w') => (Unmodelled, w')
    end.
Proof.
  revert w. induction l1 as [|a l1 IH]; intros w; [reflexivity |].
  cbn [app forEach]. unfold bind.
  destruct (f a w) as [[[]| |] w']; [apply IH | reflexivity | reflexivity].
Qed.

Lemma forEach_segments (segments : list string) :
  Forall (fun l => l = EmptyString \/ (json_line l /\ handled textDocument l))
         segments ->
  exists events routes,
    writes (forEach segments (handleOneResponseForDocument textDocument))
           (Normal tt) events routes
    /\ length routes = length (List.filter non_empty segments).
Proof.
  induction 1 as [|l ls Hl _ (evs & rs & Hw & Hlen)].
  - exists [], []. split; [apply writes_ret | reflexivity].
  - destruct Hl as [->|[Hj Hh]].
    + exists evs, rs. split; [|exact Hlen].
      change evs with ([] ++ evs)%list. change rs with ([] ++ rs)%list.
      cbn [forEach]. eapply writes_bind; [apply writes_empty_segment | exact Hw].
    + destruct (handled_line_routes textDocument l Hj Hh) as (e1 & r1 & H1).
      exists (e1 ++ evs)%list, (r1 :: rs). split.
      * cbn [forEach]. change (r1 :: rs) with ([r1] ++ rs)%list.
        eapply writes_bind; [exact H1 | exact Hw].
      * destruct Hj as (Hne & _). apply String.eqb_neq in Hne.
        cbn [List.filter]. unfold non_empty at 1. rewrite Hne. simpl. by rewrite Hlen.
Qed.

(** C3, amended. A chunk made of newline-terminated segments, each of
    them empty or a JSON line that the dispatcher handles without
    raising: the split yields the segments and a trailing empty one, the
    dispatcher returns normally, and it takes exactly one dispatch
    branch per JSON line, so N branches for N lines; an empty segment,
    the trailing one included, takes no branch and has no effect. *)
Theorem dispatcher_routes_each_line (segments : list string) (w : World) :
  Forall (fun l => l = EmptyString \/ (json_line l /\ handled textDocument l))
         segments ->
  split_newline (newline_terminated segments) = (segments ++ [EmptyString])%list
  /\ (exists events routes,
        handleFStarResponseForDocument textDocument (newline_terminated segments) w
          = (Normal tt, extend w events routes)
        /\ length routes = length (List.filter non_empty segments)
        /\ (Forall json_line segments -> length routes = length segments))
  /\ forall w',
       handleOneResponseForDocument textDocument EmptyString w' = (Normal tt, w').
Proof.
  intros H.
  assert (Forall (fun l => no_newline l = true) segments) as Hnl.
  { eapply Forall_impl; [exact H |]. intros l [->|[(_ & Hl & _) _]]; done. }
  pose proof (split_newline_terminated _ Hnl) as Hsplit.
  split; [exact Hsplit |]. split.
  - assert (Forall (fun l => l = EmptyString \/ (json_line l /\ handled textDocument l))
                   (segments ++ [EmptyString])) as H'.
    { apply Forall_app. split; [exact H |]. constructor; [by left | constructor]. }
    destruct (forEach_segments _ H') as (evs & rs & Hw & Hlen).
    exists evs, rs. unfold handleFStarResponseForDocument. rewrite Hsplit.
    split; [apply Hw |].
    rewrite List.filter_app, length_app in Hlen. simpl in Hlen.
    split; [lia |].
    intros Hj. rewrite Hlen, Nat.add_0_r. f_equal.
    clear -Hj. induction Hj as [|l ls (Hne & _) _ IH]; [reflexivity |].
    apply String.eqb_neq in Hne. cbn [List.filter]. unfold non_empty at 1.
    rewrite Hne. simpl. by rewrite IH.
  - intros w'. rewrite (writes_empty_segment textDocument w'). by rewrite extend_nil.
Qed.

(** C6, amended. A non-empty segment that is not valid JSON makes the
    dispatcher raise: the [SyntaxError] of the parse leaves the
    dispatcher, nothing is logged or sent for the segment, the segments
    after it are not processed, and the state is the one the segments
    before it left. *)
Theorem dispatcher_raises_on_invalid_json
  (chunk : string) (before after : list string) (bad : string) (w w1 : World) :
  split_newline chunk = (before ++ bad :: after)%list ->
  bad <> EmptyString ->
  JSON.parse bad = JSON.PSyntax ->
  forEach before (handleOneResponseForDocument textDocument) w = (Normal tt, w1) ->
  handleFStarResponseForDocument textDocument chunk w = (Throw SyntaxError, w1).
Proof.
  intros Hsplit Hne Hbad Hbefore.
  unfold handleFStarResponseForDocument. cbv zeta.
  change (fun line => handleOneResponseForDocument textDocument line)
    with (handleOneResponseForDocument textDocument).
  rewrite Hsplit, forEach_app, Hbefore.
  cbn [forEach]. unfold bind.
  rewrite (writes_syntax_error textDocument bad Hne Hbad w1), extend_nil.
  reflexivity.
Qed.

Lemma handled_from_initial (l : string) :
  json_line l ->
  fst (handleOneResponseForDocument textDocument l initial) = Normal tt ->
  handled textDocument l.
Proof.
  intros (Hne & _ & r & Hp) H w.
  destruct (routes_once_parsed textDocument l r Hne Hp) as (c & evs & rs & Hw & _).
  rewrite Hw in H. rewrite Hw. exact H.
Qed.

Lemma handleOneResponseForDocument_extends (l : string) :
  exists c events routes,
    writes (handleOneResponseForDocument textDocument l) c events routes.
Proof.
  destruct (String.eqb l EmptyString) eqn:Hl.
  - apply String.eqb_eq in Hl as ->. eexists _, _, _. apply writes_empty_segment.
  - pose proof Hl as Hne. apply String.eqb_neq in Hne.
    destruct (JSON.parse l) as [r| |] eqn:Hp.
    + destruct (routes_once_parsed textDocument l r Hne Hp) as (c & evs & rs & Hw & _).
      by exists c, evs, rs.
    + eexists _, _, _. by apply writes_syntax_error.
    + exists Unmodelled, [], []. intros w.
      unfold handleOneResponseForDocument. rewrite Hl.
      unfold bind, JSON_parse. rewrite Hp. unfold lift. by rewrite extend_nil.
Qed.

Lemma forEach_extends {A : Type} (l : list A) (f : A -> M unit) :
  (forall a, exists c events routes, writes (f a) c events routes) ->
  exists c events routes, writes (forEach l f) c events routes.
Proof.
  intros Hf. induction l as [|a l (c & evs & rs & IH)].
  - eexists _, _, _. apply writes_ret.
  - destruct (Hf a) as ([[]| |] & e1 & r1 & Ha); cbn [forEach].
    + eexists _, _, _. eapply writes_bind; [exact Ha | exact IH].
    + eexists _, _, _. by apply writes_bind_throw.
    + eexists _, _, _. by apply writes_bind_unmodelled.
Qed.

(** Whatever the chunk and however its handling ends, the dispatcher
    only appends to the two logs. *)
Lemma handleFStarResponseForDocument_extends (chunk : string) (w : World) :
  exists events routes,
    snd (handleFStarResponseForDocument textDocument chunk w) = extend w events routes.
Proof.
  destruct (forEach_extends (split_newline chunk)
              (handleOneResponseForDocument textDocument)
              handleOneResponseForDocument_extends) as (c & evs & rs & Hw).
  exists evs, rs. unfold handleFStarResponseForDocument. cbv zeta.
  change (fun line => handleOneResponseForDocument textDocument line)
    with (handleOneResponseForDocument textDocument).
  by rewrite Hw.
Qed.

End Chunks.

Ltac json_line_tac :=
  split; [intros Hempty; vm_compute in Hempty; discriminate |];
  split; [vm_compute; reflexivity |];
  eexists; vm_compute; reflexivity.

Ltac handled_tac :=
  apply handled_from_initial; [json_line_tac | vm_compute; reflexivity].

Lemma dispatcher_routes_each_line_witness :
  split_newline (newline_terminated [line_failure; EmptyString; line_progress])
    = ([line_failure; EmptyString; line_progress] ++ [EmptyString])%list
  /\ (exists events routes,
        handleFStarResponseForDocument doc_a
          (newline_terminated [line_failure; EmptyString; line_progress]) initial
          = (Normal tt, extend initial events routes)
        /\ length routes
           = length (List.filter non_empty [line_failure; EmptyString; line_progress])
        /\ (Forall json_line [line_failure; EmptyString; line_progress] ->
            length routes = length [line_failure; EmptyString; line_progress]))
  /\ forall w',
       handleOneResponseForDocument doc_a EmptyString w' = (Normal tt, w').
Proof.
  apply (dispatcher_routes_each_line doc_a
           [line_failure; EmptyString; line_progress] initial).
  constructor; [right; split; [json_line_tac | handled_tac] |].
  constructor; [left; reflexivity |].
  constructor; [right; split; [json_line_tac | handled_tac] |].
  constructor.
Defined.

(** C3, as stated, fails: a chunk of two newline-terminated JSON lines
    (N = 2) where the first is a failure response with an entry that has
    no range. The failure branch is taken, its handler raises, and the
    second line is never dispatched: one branch is taken, not two. *)
Lemma dispatcher_stops_at_raising_line :
  let result :=
    handleFStarResponseForDocument doc_a
      (newline_terminated [line_failure_no_range; line_info]) initial in
  json_line line_failure_no_range
  /\ json_line line_info
  /\ split_newline (newline_terminated [line_failure_no_range; line_info])
     = [line_failure_no_range; line_info; EmptyString]
  /\ fst result = Throw TypeError
  /\ routed (snd result) = [ToFailure]
  /\ length (routed (snd result)) <> 2%nat.
Proof.
  split; [json_line_tac |]. split; [json_line_tac |].
  repeat split; try (vm_compute; reflexivity). vm_compute. discriminate.
Qed.

Lemma dispatcher_raises_on_invalid_json_witness :
  handleFStarResponseForDocument doc_a
    (newline_terminated [line_info; line_not_json; line_progress]) initial
  = (Throw SyntaxError,
     extend initial [ConsoleLog "FStar ide returned protocol info"] [ToProtocolInfo]).
Proof.
  exact (dispatcher_raises_on_invalid_json doc_a
           (newline_terminated [line_info; line_not_json; line_progress])
           [line_info] [line_progress; EmptyString] line_not_json initial
           (extend initial [ConsoleLog "FStar ide returned protocol info"]
                   [ToProtocolInfo])
           eq_refl ltac:(discriminate) eq_refl eq_refl).
Defined.

(** C6, as stated, fails: a chunk whose second segment is not JSON. The
    dispatcher raises [SyntaxError]; nothing is logged for the segment,
    and the protocol-info line after it is not processed, so its log
    entry and its branch are missing. *)
Lemma dispatcher_crashes_on_invalid_json :
  let result :=
    handleFStarResponseForDocument doc_a
      (newline_terminated [line_info; line_not_json; line_info]) initial in
  JSON.parse line_not_json = JSON.PSyntax
  /\ fst result = Throw SyntaxError
  /\ sent (snd result) = [ConsoleLog "FStar ide returned protocol info"]
  /\ routed (snd result) = [ToProtocolInfo].
Proof. repeat split; vm_compute; reflexivity. Qed.

Section Encoder.

Variable textDocument : TextDocument.

Lemma sendRequestForDocument_registered
  (msg : list (string * json)) (w : World) (st : IDEState) :
  documentState w !! uri textDocument = Some st ->
  sendRequestForDocument textDocument msg w
  = (Normal tt,
     mkWorld (documentSettings w)
       (<[uri textDocument := mkIDEState (fstar_ide st) (last_query_id st + 1)]>
          (documentState w))
       (alter (write_to (String "010" EmptyString)) (fstar_ide st)
          (alter (write_to (stamped (last_query_id st + 1) msg)) (fstar_ide st)
             (processes w)))
       (sent w) (routed w)).
Proof.
  intros H. unfold sendRequestForDocument, bind, get_world. rewrite H. reflexivity.
Qed.

Lemma sendRequestForDocument_unregistered (msg : list (string * json)) (w : World) :
  documentState w !! uri textDocument = None ->
  sendRequestForDocument textDocument msg w = (Normal tt, w).
Proof.
  intros H. unfold sendRequestForDocument, bind, get_world. rewrite H. reflexivity.
Qed.

Lemma stamped_query_id (n : Z) (msg : list (string * json)) :
  assoc "query-id" (set_prop "query-id" (JStr (pretty n)) msg) = Some (JStr (pretty n)).
Proof.
  induction msg as [|[k v] msg IH]; [reflexivity |].
  cbn [set_prop]. destruct (String.eqb "query-id" k) eqn:Hk; cbn [assoc].
  - by rewrite String.eqb_refl.
  - by rewrite Hk.
Qed.

Lemma stdin_after_writes (ps : list ChildProcess) (proc : nat) (p : ChildProcess)
  (t1 t2 : string) :
  ps !! proc = Some p ->
  alter (write_to t2) proc (alter (write_to t1) proc ps) !! proc
  = Some (write_to t2 (write_to t1 p)).
Proof.
  intros H.
  by rewrite !list_lookup_alter_eq, H.
Qed.

(** C8. At a send on a registered session, the counter of the session
    at that moment is the assigned query-id minus 1: the query written
    to the subprocess carries the identifier [n] in decimal, where the
    counter stood at [n - 1] before the send and stands at [n] after. *)
Theorem sendRequestForDocument_counter_before_send
  (msg : list (string * json)) (w : World) (st : IDEState) (p : ChildProcess) :
  documentState w !! uri textDocument = Some st ->
  processes w !! fstar_ide st = Some p ->
  exists n : Z,
    last_query_id st = n - 1
    /\ fst (sendRequestForDocument textDocument msg w) = Normal tt
    /\ stdin <$> processes (snd (sendRequestForDocument textDocument msg w))
                   !! fstar_ide st
       = Some (stdin p ++ [stamped n msg; String "010" EmptyString])%list
    /\ assoc "query-id" (set_prop "query-id" (JStr (pretty n)) msg)
       = Some (JStr (pretty n))
    /\ documentState (snd (sendRequestForDocument textDocument msg w))
         !! uri textDocument
       = Some (mkIDEState (fstar_ide st) n).
Proof.
  intros Hst Hp. exists (last_query_id st + 1).
  rewrite (sendRequestForDocument_registered msg w st Hst). cbn [fst snd].
  split; [lia |]. split; [reflexivity |]. split; [|split].
  - cbn [processes]. rewrite (stdin_after_writes _ _ _ _ _ Hp).
    cbn. by rewrite <- app_assoc.
  - apply stamped_query_id.
  - cbn [documentState]. by rewrite lookup_insert_eq.
Qed.

End Encoder.

Section Sessions.

Variable fsPath : string -> string.
Variable dirname : string -> string.
Variable basename : string -> string.


Lemma numbered_app (n : Z) (l1 l2 : list (list (string * json))) :
  numbered n (l1 ++ l2)
  = (numbered n l1 ++ numbered (n + Z.of_nat (length l1)) l2)%list.
Proof.
  revert n. induction l1 as [|m l1 IH]; intros n.
  - simpl. by rewrite Z.add_0_r.
  - cbn [app numbered length]. rewrite IH. cbn [app].
    replace (n + Z.of_nat (S (length l1))) with (n + 1 + Z.of_nat (length l1)) by lia.
    reflexivity.
Qed.

Lemma numbered_lookup (n : Z) (msgs : list (list (string * json))) (i : nat)
  (msg : list (string * json)) :
  msgs !! i = Some msg ->
  numbered n msgs !! (2 * i)%nat = Some (stamped (n + Z.of_nat i + 1) msg).
Proof.
  revert n i. induction msgs as [|m msgs IH]; intros n i H; [done |].
  destruct i as [|i].
  - simpl in *. simplify_eq. by rewrite Z.add_0_r.
  - cbn [numbered]. replace (2 * S i)%nat with (S (S (2 * i))) by lia.
    cbn [lookup list_lookup]. simpl in H.
    etrans; [apply (IH (n + 1) i H) |].
    replace (n + 1 + Z.of_nat i + 1) with (n + Z.of_nat (S i) + 1) by lia.
    reflexivity.
Qed.

(** A step that leaves the registry and the subprocess table alone. *)
Lemma sessions_numbered_frame (w w' : World) :
  documentState w' = documentState w ->
  processes w' = processes w ->
  sessions_numbered w -> sessions_numbered w'.
Proof. unfold sessions_numbered. intros -> ->. done. Qed.

Lemma sessions_numbered_send (doc : TextDocument) (msg : list (string * json))
  (w : World) :
  sessions_numbered w ->
  sessions_numbered (snd (sendRequestForDocument doc msg w)).
Proof.
  intros [Hnum Hinj].
  destruct (documentState w !! uri doc) as [st|] eqn:Hst.
  2: { rewrite (sendRequestForDocument_unregistered doc msg w Hst). done. }
  rewrite (sendRequestForDocument_registered doc msg w st Hst). cbn [snd].
  destruct (Hnum _ _ Hst) as (p & msgs & Hp & Hin & Hq).
  split; cbn [documentState processes].
  - intros u st' Hu.
    destruct (decide (u = uri doc)) as [->|Hne].
    + rewrite lookup_insert_eq in Hu. simplify_eq. cbn [fstar_ide last_query_id].
      exists (write_to (String "010" EmptyString)
                (write_to (stamped (last_query_id st + 1) msg) p)),
             (msgs ++ [msg])%list.
      split; [by apply stdin_after_writes |]. split.
      * cbn [write_to stdin]. rewrite Hin, numbered_app. cbn [numbered].
        rewrite <- app_assoc. cbn [app]. rewrite Hq, Z.add_0_l. reflexivity.
      * rewrite length_app. simpl. lia.
    + rewrite lookup_insert_ne in Hu by done.
      destruct (Hnum _ _ Hu) as (p' & msgs' & Hp' & Hin' & Hq').
      assert (fstar_ide st' <> fstar_ide st) as Hpid.
      { intros Heq. apply Hne. by eapply Hinj. }
      exists p', msgs'. split; [|done].
      by rewrite !list_lookup_alter_ne.
  - intros u1 u2 st1 st2 H1 H2 Heq.
    assert (forall u s, <[uri doc := mkIDEState (fstar_ide st) (last_query_id st + 1)]>
                          (documentState w) !! u = Some s ->
                        exists s', documentState w !! u = Some s'
                                   /\ fstar_ide s' = fstar_ide s) as Hold.
    { intros u s Hu. destruct (decide (u = uri doc)) as [->|Hne].
      - rewrite lookup_insert_eq in Hu. simplify_eq. by exists st.
      - rewrite lookup_insert_ne in Hu by done. by exists s. }
    destruct (Hold _ _ H1) as (s1 & Hs1 & E1).
    destruct (Hold _ _ H2) as (s2 & Hs2 & E2).
    eapply Hinj; [exact Hs1 | exact Hs2 | congruence].
Qed.

Lemma onDidOpen_state (doc : TextDocument) (w : World) :
  onDidOpen fsPath dirname basename doc w
  = (Normal tt,
     mkWorld (documentSettings w)
       (<[uri doc := mkIDEState (length (processes w)) 1]>
          (<[uri doc := mkIDEState (length (processes w)) 0]> (documentState w)))
       (alter (write_to (String "010" EmptyString)) (length (processes w))
          (alter (write_to (stamped 1 (vfs_add_query doc))) (length (processes w))
             (alter (listen_for doc) (length (processes w))
                (processes w ++
                 [mkProc "fstar.exe" ["--ide"; basename (fsPath (uri doc))]
                         (dirname (fsPath (uri doc))) [] None true])%list)))
       (sent w ++
        [ConsoleLog ("onDidOpen(dir=" +:+ dirname (fsPath (uri doc)) +:+ ", file="
                     +:+ basename (fsPath (uri doc)))])
       (routed w)).
Proof.
  unfold onDidOpen, console_log, emit, spawn, stdout_on_data, set_processes,
    set_documentState, get_world, ret, bind.
  cbv beta iota zeta. cbn [processes documentState documentSettings sent routed].
  rewrite (sendRequestForDocument_registered doc _ _
             (mkIDEState (length (processes w)) 0))
    by (cbn [documentState]; apply lookup_insert_eq).
  reflexivity.
Qed.

Lemma sessions_numbered_open (doc : TextDocument) (w : World) :
  sessions_numbered w ->
  sessions_numbered (snd (onDidOpen fsPath dirname basename doc w)).
Proof.
  intros [Hnum Hinj]. rewrite onDidOpen_state. cbn [snd].
  set (n := length (processes w)).
  assert (forall u st, documentState w !! u = Some st -> (fstar_ide st < n)%nat) as Hlt.
  { intros u st Hu. destruct (Hnum _ _ Hu) as (p & _ & Hp & _).
    by apply lookup_lt_Some in Hp. }
  split; cbn [documentState processes].
  - intros u st Hu. rewrite insert_insert_eq in Hu.
    destruct (decide (u = uri doc)) as [->|Hne].
    + rewrite lookup_insert_eq in Hu. simplify_eq. cbn [fstar_ide last_query_id].
      eexists _, [vfs_add_query doc]. split; [|split].
      * rewrite !list_lookup_alter_eq.
        rewrite lookup_app_r by (unfold n; lia).
        replace (n - length (processes w))%nat with 0%nat by (unfold n; lia).
        reflexivity.
      * reflexivity.
      * reflexivity.
    + rewrite lookup_insert_ne in Hu by done.
      destruct (Hnum _ _ Hu) as (p & msgs & Hp & Hin & Hq).
      pose proof (Hlt _ _ Hu) as Hn.
      exists p, msgs. split; [|done].
      rewrite !list_lookup_alter_ne by lia.
      by rewrite lookup_app_l by (fold n; lia).
  - intros u1 u2 st1 st2 H1 H2 Heq. rewrite insert_insert_eq in H1, H2.
    destruct (decide (u1 = uri doc)) as [->|Hne1];
      destruct (decide (u2 = uri doc)) as [->|Hne2]; [done | | |].
    + rewrite lookup_insert_eq in H1. rewrite lookup_insert_ne in H2 by done.
      simplify_eq. cbn in Heq. pose proof (Hlt _ _ H2). lia.
    + rewrite lookup_insert_eq in H2. rewrite lookup_insert_ne in H1 by done.
      simplify_eq. cbn in Heq. pose proof (Hlt _ _ H1). lia.
    + rewrite lookup_insert_ne in H1, H2 by done. by eapply Hinj.
Qed.

Lemma sessions_numbered_exit (proc : nat) (w : World) :
  sessions_numbered w ->
  sessions_numbered
    (mkWorld (documentSettings w) (documentState w)
             (alter exited proc (processes w)) (sent w) (routed w)).
Proof.
  intros [Hnum Hinj]. split; cbn [documentState processes]; [|exact Hinj].
  intros u st Hu. destruct (Hnum _ _ Hu) as (p & msgs & Hp & Hin & Hq).
  destruct (decide (proc = fstar_ide st)) as [->|Hne].
  - exists (exited p), msgs. by rewrite list_lookup_alter_eq, Hp.
  - exists p, msgs. by rewrite list_lookup_alter_ne.
Qed.

Lemma sessions_numbered_step (w : World) (i : Input) :
  sessions_numbered w -> sessions_numbered (step fsPath dirname basename w i).
Proof.
  intros Hw. unfold step. destruct i as [doc|doc|doc|proc chunk|proc]; cbn [handle].
  - by apply sessions_numbered_open.
  - unfold onDidChangeContent, validateFStarDocument, sendDiagnostics,
      sendStatusClear, sendNotification_statusClear, console_log, emit, bind.
    cbv beta iota zeta.
    match goal with |- sessions_numbered (snd (sendRequestForDocument _ _ ?w0)) =>
      apply (sessions_numbered_send doc _ w0) end.
    by eapply sessions_numbered_frame; [| |exact Hw].
  - by eapply sessions_numbered_frame; [| |exact Hw].
  - unfold bind, get_world. cbv beta iota.
    destruct (processes w !! proc) as [p|]; [|done].
    destruct (stdout_listener p) as [doc|]; [|done].
    destruct (handleFStarResponseForDocument_extends doc chunk w) as (evs & rs & ->).
    by eapply sessions_numbered_frame; [| |exact Hw].
  - by apply sessions_numbered_exit.
Qed.

Lemma sessions_numbered_initial : sessions_numbered initial.
Proof. split; intros *; cbn; by rewrite lookup_empty. Qed.

Lemma onDidClose_state (doc : TextDocument) (w : World) :
  onDidClose doc w
  = (Normal tt,
     mkWorld (delete (uri doc) (documentSettings w)) (documentState w)
             (processes w) (sent w) (routed w)).
Proof. reflexivity. Qed.

Lemma reachable_sessions_numbered (w : World) :
  reachable fsPath dirname basename w -> sessions_numbered w.
Proof.
  induction 1 as [|w i _ IH _]; [apply sessions_numbered_initial |].
  by apply sessions_numbered_step.
Qed.

(** C4. In every state the server can reach, the queries a registered
    session has sent so far are numbered 1, 2, 3, ... in the order of the
    sends, with no gap and no repeat: the subprocess has received the
    i-th query stamped with the decimal text of i and followed by a line
    terminator, the counter of the session is the number of queries
    sent, and the next send is stamped with the counter plus one. *)
Theorem queries_numbered_from_one (w : World) (u : string) (st : IDEState) :
  reachable fsPath dirname basename w ->
  documentState w !! u = Some st ->
  exists p msgs,
    processes w !! fstar_ide st = Some p
    /\ stdin p = numbered 0 msgs
    /\ last_query_id st = Z.of_nat (length msgs)
    /\ (forall (i : nat) msg,
          msgs !! i = Some msg ->
          stdin p !! (2 * i)%nat = Some (stamped (Z.of_nat i + 1) msg)
          /\ assoc "query-id" (set_prop "query-id" (JStr (pretty (Z.of_nat i + 1))) msg)
             = Some (JStr (pretty (Z.of_nat i + 1))))
    /\ (forall i j : nat, i <> j -> pretty (Z.of_nat i + 1) <> pretty (Z.of_nat j + 1))
    /\ (forall doc msg,
          uri doc = u ->
          stdin <$> processes (snd (sendRequestForDocument doc msg w)) !! fstar_ide st
          = Some (stdin p ++ [stamped (Z.of_nat (length msgs) + 1) msg;
                              String "010" EmptyString])%list).
Proof.
  intros Hr Hst.
  destruct (reachable_sessions_numbered w Hr) as [Hnum _].
  destruct (Hnum _ _ Hst) as (p & msgs & Hp & Hin & Hq).
  exists p, msgs.
  split; [done |]. split; [done |]. split; [done |]. split; [|split].
  - intros i msg Hi. split; [|apply stamped_query_id].
    rewrite Hin. rewrite (numbered_lookup 0 msgs i msg) by done.
    by rewrite Z.add_0_l.
  - intros i j Hij Heq. apply (inj pretty) in Heq. lia.
  - intros doc msg <-.
    rewrite (sendRequestForDocument_registered doc msg w st Hst). cbn [snd processes].
    rewrite (stdin_after_writes _ _ _ _ _ Hp). cbn.
    by rewrite <- app_assoc, Hq.
Qed.


(** Opening a URI again leaves the subprocess of the replaced session
    running, its listener still serving the document. *)
Lemma onDidOpen_keeps_replaced_subprocess
  (doc : TextDocument) (w : World) (old : IDEState) (p : ChildProcess) :
  documentState w !! uri doc = Some old ->
  processes w !! fstar_ide old = Some p ->
  processes (step fsPath dirname basename w (DidOpen doc)) !! fstar_ide old = Some p.
Proof.
  intros Hold Hp. unfold step. cbn [handle]. rewrite onDidOpen_state.
  cbn [snd processes]. pose proof (lookup_lt_Some _ _ _ Hp) as Hlt.
  rewrite !list_lookup_alter_ne by lia. by rewrite lookup_app_l.
Qed.

(** C7, on the code. Whatever the state, after a document is opened and
    then closed its session is still in the registry and the subprocess
    of the session, still listening for the document, is still running:
    closing removes the cached settings only. *)
Theorem onDidClose_leaves_subprocess_running (doc : TextDocument) (w : World) :
  let opened := step fsPath dirname basename w (DidOpen doc) in
  let closed := step fsPath dirname basename opened (DidClose doc) in
  documentState closed = documentState opened
  /\ processes closed = processes opened
  /\ documentState closed !! uri doc = Some (mkIDEState (length (processes w)) 1)
  /\ running <$> processes closed !! length (processes w) = Some true
  /\ stdout_listener <$> processes closed !! length (processes w) = Some (Some doc).
Proof.
  cbv zeta. unfold step. cbn [handle].
  rewrite onDidClose_state, onDidOpen_state. cbn [snd documentState processes].
  split; [done |]. split; [done |].
  split; [apply lookup_insert_eq |].
  rewrite !list_lookup_alter_eq, lookup_app_r, Nat.sub_diag by lia.
  split; reflexivity.
Qed.

End Sessions.

Lemma reachable_opened_a :
  reachable example_fsPath example_dirname example_basename opened_a.
Proof. apply reachable_step; [apply reachable_initial | by vm_compute]. Qed.

Lemma reachable_changed_a :
  reachable example_fsPath example_dirname example_basename changed_a.
Proof. apply reachable_step; [apply reachable_opened_a | by vm_compute]. Qed.

Lemma sendRequestForDocument_counter_before_send_witness :
  let p :=
    mkProc "fstar.exe" ["--ide"; "a.fst"] "/"
           [stamped 1 (vfs_add_query doc_a); String "010" EmptyString]
           (Some doc_a) true in
  let after := sendRequestForDocument doc_a (full_buffer_query doc_a) opened_a in
  exists n : Z,
    1 = n - 1
    /\ fst after = Normal tt
    /\ stdin <$> processes (snd after) !! 0%nat
       = Some (stdin p ++ [stamped n (full_buffer_query doc_a);
                           String "010" EmptyString])%list
    /\ assoc "query-id"
         (set_prop "query-id" (JStr (pretty n)) (full_buffer_query doc_a))
       = Some (JStr (pretty n))
    /\ documentState (snd after) !! uri doc_a = Some (mkIDEState 0 n).
Proof.
  intros p after.
  exact (sendRequestForDocument_counter_before_send doc_a (full_buffer_query doc_a)
           opened_a (mkIDEState 0 1) p
           ltac:(vm_compute; reflexivity) ltac:(vm_compute; reflexivity)).
Defined.

Lemma queries_numbered_from_one_witness :
  (exists p msgs,
     processes changed_a !! 0%nat = Some p
     /\ stdin p = numbered 0 msgs
     /\ 2 = Z.of_nat (length msgs)
     /\ (forall (i : nat) msg,
           msgs !! i = Some msg ->
           stdin p !! (2 * i)%nat = Some (stamped (Z.of_nat i + 1) msg)
           /\ assoc "query-id" (set_prop "query-id" (JStr (pretty (Z.of_nat i + 1))) msg)
              = Some (JStr (pretty (Z.of_nat i + 1))))
     /\ (forall i j : nat, i <> j -> pretty (Z.of_nat i + 1) <> pretty (Z.of_nat j + 1))
     /\ (forall doc msg,
           uri doc = "file:///a.fst" ->
           stdin <$> processes (snd (sendRequestForDocument doc msg changed_a)) !! 0%nat
           = Some (stdin p ++ [stamped (Z.of_nat (length msgs) + 1) msg;
                               String "010" EmptyString])%list))
  /\ stdin <$> processes changed_a !! 0%nat
     = Some [dq "{'query':'vfs-add','args':{'filename':null,'contents':'let x = 1'},'query-id':'1'}";
             String "010" EmptyString;
             dq "{'query':'full-buffer','args':{'kind':'full','code':'let x = 1','line':0,'column':0},'query-id':'2'}";
             String "010" EmptyString].
Proof.
  split.
  - exact (queries_numbered_from_one example_fsPath example_dirname example_basename
             changed_a "file:///a.fst" (mkIDEState 0 2)
             reachable_changed_a ltac:(vm_compute; reflexivity)).
  - vm_compute. reflexivity.
Defined.



(** ** Further properties of the dispatcher, the encoder and the sessions *)

Section Lines.

Lemma no_newline_app (a b : string) :
  no_newline (a +:+ b) = no_newline a && no_newline b.
Proof.
  induction a as [|c a IH]; [reflexivity |].
  simpl. rewrite IH. by rewrite andb_assoc.
Qed.

Lemma no_newline_pretty_N_go (x : N) (s : string) :
  no_newline s = true -> no_newline (pretty_N_go x s) = true.
Proof.
  revert s. induction (N.lt_wf_0 x) as [x _ IH]; intros s Hs.
  destruct (decide (0 < x)%N) as [Hx|Hx].
  - rewrite pretty_N_go_step by done. apply IH; [by apply N.div_lt |].
    cbn [no_newline]. rewrite Hs, andb_true_r.
    unfold pretty_N_char. by repeat case_match.
  - assert (x = 0%N) as -> by lia. by rewrite pretty_N_go_0.
Qed.

Lemma no_newline_pretty_N (x : N) : no_newline (pretty x) = true.
Proof.
  unfold pretty, pretty_N. case_decide; [reflexivity |].
  by apply no_newline_pretty_N_go.
Qed.

Lemma no_newline_pretty_Z (z : Z) : no_newline (pretty z) = true.
Proof.
  destruct z as [|p|p]; unfold pretty, pretty_Z.
  - reflexivity.
  - apply no_newline_pretty_N.
  - rewrite no_newline_app. apply andb_true_iff.
    split; [reflexivity | apply no_newline_pretty_N].
Qed.

Lemma no_newline_escape_char (c : ascii) : no_newline (JSON.escape_char c) = true.
Proof. destruct c as [[] [] [] [] [] [] [] []]; reflexivity. Qed.

Lemma no_newline_escape (s : string) : no_newline (JSON.escape s) = true.
Proof.
  induction s as [|c s IH]; [reflexivity |].
  cbn [JSON.escape]. by rewrite no_newline_app, no_newline_escape_char, IH.
Qed.

Lemma no_newline_quote (s : string) : no_newline (JSON.quote s) = true.
Proof.
  unfold JSON.quote. cbn [no_newline].
  by rewrite no_newline_app, no_newline_escape.
Qed.

Lemma no_newline_join (sep : string) (l : list string) :
  no_newline sep = true ->
  Forall (fun s => no_newline s = true) l ->
  no_newline (join sep l) = true.
Proof.
  intros Hsep. induction 1 as [|s l Hs Hl IH]; [reflexivity |].
  destruct l as [|s' l']; [exact Hs |].
  change (join sep (s :: s' :: l')) with (s +:+ sep +:+ join sep (s' :: l')).
  by rewrite !no_newline_app, Hs, Hsep, IH.
Qed.

(** Induction on JSON values, through arrays and objects. *)
Lemma json_induction (P : json -> Prop) :
  P JNull ->
  (forall b, P (JBool b)) ->
  (forall n, P (JNum n)) ->
  (forall s, P (JStr s)) ->
  (forall items, Forall P items -> P (JArr items)) ->
  (forall ms, Forall (fun m => P (snd m)) ms -> P (JObj ms)) ->
  forall v, P v.
Proof.
  intros Hnull Hbool Hnum Hstr Harr Hobj.
  fix IH 1. intros [| b | n | s | items | ms].
  - exact Hnull.
  - apply Hbool.
  - apply Hnum.
  - apply Hstr.
  - apply Harr. induction items as [|x items IHitems]; constructor; [apply IH | exact IHitems].
  - apply Hobj. induction ms as [|[k x] ms IHms]; constructor; [apply IH | exact IHms].
Qed.

Lemma no_newline_stringify (v : json) : no_newline (JSON.stringify v) = true.
Proof.
  induction v as [| [] | n | s | items IH | ms IH] using json_induction;
    try reflexivity.
  - apply no_newline_pretty_Z.
  - apply no_newline_quote.
  - cbn [JSON.stringify]. rewrite !no_newline_app.
    apply andb_true_iff; split; [reflexivity |].
    apply andb_true_iff; split; [|reflexivity].
    apply no_newline_join; [reflexivity |]. by apply Forall_fmap.
  - cbn [JSON.stringify]. rewrite !no_newline_app.
    apply andb_true_iff; split; [reflexivity |].
    apply andb_true_iff; split; [|reflexivity].
    apply no_newline_join; [reflexivity |].
    apply Forall_fmap. eapply Forall_impl; [exact IH |].
    intros [k x] Hx. cbn [fst snd compose] in *.
    rewrite !no_newline_app, no_newline_quote, Hx. reflexivity.
Qed.

End Lines.

Section Framing.

Variable fsPath : string -> string.
Variable dirname : string -> string.
Variable basename : string -> string.

Lemma written_numbered (n : Z) (msgs : list (list (string * json))) :
  written (numbered n msgs) = newline_terminated (query_lines n msgs).
Proof.
  revert n. induction msgs as [|m msgs IH]; intros n; [reflexivity |].
  cbn [numbered written query_lines newline_terminated]. by rewrite IH.
Qed.

Lemma no_newline_query_lines (n : Z) (msgs : list (list (string * json))) :
  Forall (fun l => no_newline l = true) (query_lines n msgs).
Proof.
  revert n. induction msgs as [|m msgs IH]; intros n; constructor; [|apply IH].
  apply no_newline_stringify.
Qed.

Lemma query_lines_lookup (n : Z) (msgs : list (list (string * json))) (i : nat)
  (msg : list (string * json)) :
  msgs !! i = Some msg ->
  query_lines n msgs !! i = Some (stamped (n + Z.of_nat i + 1) msg).
Proof.
  revert n i. induction msgs as [|m msgs IH]; intros n i H; [done |].
  destruct i as [|i].
  - simpl in *. simplify_eq. by rewrite Z.add_0_r.
  - cbn [query_lines lookup list_lookup]. simpl in H.
    etrans; [apply (IH (n + 1) i H) |].
    replace (n + 1 + Z.of_nat i + 1) with (n + Z.of_nat (S i) + 1) by lia.
    reflexivity.
Qed.

(** Read line by line, the input of a session's subprocess is the
    queries of the session and nothing else: in every reachable state
    the text written so far splits at its newlines into one line per
    query, in send order, the i-th being the i-th query stamped with i,
    followed by one empty segment; no query contains a newline, whatever
    the text of the document. *)
Theorem session_input_is_one_line_per_query
  (w : World) (u : string) (st : IDEState) :
  reachable fsPath dirname basename w ->
  documentState w !! u = Some st ->
  exists p msgs,
    processes w !! fstar_ide st = Some p
    /\ last_query_id st = Z.of_nat (length msgs)
    /\ split_newline (written (stdin p))
       = (query_lines 0 msgs ++ [EmptyString])%list
    /\ length (query_lines 0 msgs) = length msgs
    /\ (forall (i : nat) msg,
          msgs !! i = Some msg ->
          query_lines 0 msgs !! i = Some (stamped (Z.of_nat i + 1) msg)
          /\ no_newline (stamped (Z.of_nat i + 1) msg) = true).
Proof.
  intros Hr Hst.
  destruct (reachable_sessions_numbered fsPath dirname basename w Hr) as [Hnum _].
  destruct (Hnum _ _ Hst) as (p & msgs & Hp & Hin & Hq).
  exists p, msgs. split; [done |]. split; [done |]. split; [|split].
  - rewrite Hin, written_numbered.
    apply split_newline_terminated, no_newline_query_lines.
  - clear. generalize 0. induction msgs as [|m msgs IH]; intros n; [reflexivity |].
    cbn [query_lines length]. by rewrite IH.
  - intros i msg Hi. split; [|apply no_newline_stringify].
    rewrite (query_lines_lookup 0 msgs i msg Hi). by rewrite Z.add_0_l.
Qed.

End Framing.

Lemma session_input_is_one_line_per_query_witness :
  exists p msgs,
    processes changed_a !! 0%nat = Some p
    /\ 2 = Z.of_nat (length msgs)
    /\ split_newline (written (stdin p))
       = (query_lines 0 msgs ++ [EmptyString])%list
    /\ length (query_lines 0 msgs) = length msgs
    /\ (forall (i : nat) msg,
          msgs !! i = Some msg ->
          query_lines 0 msgs !! i = Some (stamped (Z.of_nat i + 1) msg)
          /\ no_newline (stamped (Z.of_nat i + 1) msg) = true).
Proof.
  exact (session_input_is_one_line_per_query example_fsPath example_dirname
           example_basename changed_a "file:///a.fst" (mkIDEState 0 2)
           reachable_changed_a ltac:(vm_compute; reflexivity)).
Defined.

Section ChunkBoundaries.

Variable textDocument : TextDocument.

Lemma split_newline_cons (data : string) :
  exists l ls, split_newline data = l :: ls.
Proof.
  induction data as [|c data (l & ls & IH)]; [by eexists _, _ |].
  cbn [split_newline]. rewrite IH. destruct (Ascii.eqb c "010"); by eexists _, _.
Qed.

Lemma split_newline_at_newline (a b : string) :
  split_newline (a +:+ String "010" b) = (split_newline a ++ split_newline b)%list.
Proof.
  induction a as [|c a IH]; [reflexivity |].
  change (String c a +:+ String "010" b) with (String c (a +:+ String "010" b)).
  cbn [split_newline]. rewrite IH.
  destruct (Ascii.eqb c "010"); [reflexivity |].
  destruct (split_newline_cons a) as (l & ls & ->). reflexivity.
Qed.

(** A chunk is handled as the text before one of its newlines followed
    by the text after it: cutting the output of the subprocess at a
    newline, or not cutting it there, makes no difference; and when the
    first part raises, the second is not handled. *)
Theorem chunk_cut_at_newline (a b : string) (w : World) :
  handleFStarResponseForDocument textDocument (a +:+ String "010" b) w
  = (handleFStarResponseForDocument textDocument a ;;;
     handleFStarResponseForDocument textDocument b) w.
Proof.
  unfold handleFStarResponseForDocument, bind. cbv zeta.
  rewrite split_newline_at_newline, forEach_app. reflexivity.
Qed.

(** How a chunk is handled depends on the chunk alone. The completion
    and the messages are the same in every state of the server, and the
    cached settings, the registry and the table of subprocesses (so every
    counter and every subprocess input) are left as they are: the
    dispatcher keeps no buffer between chunks, so a response that arrives
    split over two chunks is never put together. *)
Theorem dispatcher_keeps_no_state (chunk : string) :
  exists c events routes,
    forall w : World,
      handleFStarResponseForDocument textDocument chunk w
      = (c, mkWorld (documentSettings w) (documentState w) (processes w)
              (sent w ++ events) (routed w ++ routes)).
Proof.
  destruct (forEach_extends (split_newline chunk)
              (handleOneResponseForDocument textDocument)
              (handleOneResponseForDocument_extends textDocument))
    as (c & evs & rs & Hw).
  exists c, evs, rs. intros w. unfold handleFStarResponseForDocument. cbv zeta.
  change (fun line => handleOneResponseForDocument textDocument line)
    with (handleOneResponseForDocument textDocument).
  by rewrite Hw.
Qed.

End ChunkBoundaries.

Section PositionErrors.

Lemma mkPosition_numbers (v : jsval) (nums : list Z) :
  as_numbers v = Some nums -> mkPosition v = Normal (typed_position nums).
Proof.
  unfold as_numbers. intros H.
  destruct v as [[| | | |items|]|]; try done.
  apply mapM_Some in H.
  unfold mkPosition, typed_position. cbn [get_index and_then_c].
  assert (forall i, items !! i = JNum <$> nums !! i) as Hlook.
  { intros i. revert i. induction H as [|x n items nums Hx _ IH]; intros [|i]; try done.
    - destruct x; simpl in Hx; by simplify_eq.
    - apply IH. }
  rewrite !Hlook. destruct (nums !! 0%nat); reflexivity.
Qed.

Lemma minus_one_raises (x : jsval) (e : exn) :
  minus_one x = Throw e
  <-> e = TypeError /\ exists ms v, x = Some (JObj ms) /\ assoc "toString" ms = Some v.
Proof.
  destruct x as [[| [] | | | |ms]|]; cbn [minus_one to_string];
    try (split; [done | by intros (_ & ? & ? & ? & _)]).
  destruct (assoc "toString" ms) as [v|] eqn:Ht.
  - split; [intros ?; simplify_eq; by eauto | by intros [-> _]].
  - split; [done | intros (_ & ? & ? & ? & ?); by simplify_eq].
Qed.

Lemma and_then_minus_one_raises (x0 x1 : jsval) (e : exn) :
  and_then_c (minus_one x0) (fun l => Normal (mkPos l x1)) = Throw e
  <-> minus_one x0 = Throw e.
Proof. destruct (minus_one x0); cbn [and_then_c]; split; intros ?; by simplify_eq. Qed.

Lemma mkPosition_raises (pos : jsval) (e : exn) :
  mkPosition pos = Throw e
  <-> (nullish pos = true /\ e = TypeError)
      \/ (exists x, get_index pos 0 = Normal x /\ minus_one x = Throw e).
Proof.
  unfold mkPosition.
  destruct pos as [[| | | | |]|]; cbn [get_index and_then_c nullish];
    rewrite ?and_then_minus_one_raises;
    (split;
     [ intros H;
       first [ left; split; [reflexivity | congruence]
             | right; eexists; split; [reflexivity | exact H] ]
     | intros [[? ?] | (x & Hx & Hm)];
       first [ congruence | by simplify_eq ] ]).
Qed.

(** Where string-to-number conversion plays no part, [mkPosition]
    raises in two cases only, each time a [TypeError]: when it is given
    no array at all ([undefined] or [null]), and when the first component
    is an object with a member [toString] of its own, which cannot be
    converted for the subtraction.  On an array of numbers it never
    raises, also when components are missing: the line is then [NaN] and
    the character [undefined]. *)
Theorem mkPosition_raising_inputs (pos : jsval) (e : exn) :
  mkPosition pos <> Unmodelled ->
  (mkPosition pos = Throw e
   <-> e = TypeError
       /\ (nullish pos = true
           \/ exists ms v,
                get_index pos 0 = Normal (Some (JObj ms))
                /\ assoc "toString" ms = Some v))
  /\ forall nums : list Z,
       Forall (fun n => safe_integer n = true) nums ->
       mkPosition (Some (JArr (JNum <$> nums)))
       = Normal (mkPos (match nums !! 0%nat with
                        | Some l => Num (l - 1)
                        | None => NaN
                        end)
                       (JNum <$> nums !! 1%nat)).
Proof.
  intros _. split.
  - rewrite mkPosition_raises. split.
    + intros [[Hn ->] | (x & Hx & He)]; [by auto |].
      apply minus_one_raises in He as (-> & ms & v & -> & Hv).
      split; [done |]. right. by exists ms, v.
    + intros (-> & [Hn | (ms & v & Hx & Hv)]); [by left |].
      right. exists (Some (JObj ms)). split; [done |].
      apply minus_one_raises. by eauto.
  - intros nums _. apply (mkPosition_numbers _ nums).
    unfold as_numbers. apply mapM_Some.
    induction nums; constructor; done.
Qed.

End PositionErrors.

Lemma mkPosition_raising_inputs_witness :
  (mkPosition (Some (JArr [JObj [("toString", JNum 1)]; JNum 0])) = Throw TypeError
   <-> TypeError = TypeError
       /\ (nullish (Some (JArr [JObj [("toString", JNum 1)]; JNum 0])) = true
           \/ exists ms v,
                get_index (Some (JArr [JObj [("toString", JNum 1)]; JNum 0])) 0
                = Normal (Some (JObj ms))
                /\ assoc "toString" ms = Some v))
  /\ forall nums : list Z,
       Forall (fun n => safe_integer n = true) nums ->
       mkPosition (Some (JArr (JNum <$> nums)))
       = Normal (mkPos (match nums !! 0%nat with
                        | Some l => Num (l - 1)
                        | None => NaN
                        end)
                       (JNum <$> nums !! 1%nat)).
Proof.
  apply (mkPosition_raising_inputs
           (Some (JArr [JObj [("toString", JNum 1)]; JNum 0])) TypeError).
  discriminate.
Defined.

Section EventsOfTheDispatcher.

Variable textDocument : TextDocument.

Lemma writes_for_ret {A : Type} (u : string) (a : A) : writes_for u (ret a).
Proof. exists (Normal a), [], []. split; [apply writes_ret | reflexivity]. Qed.

Lemma writes_for_lift {A : Type} (u : string) (c : completion A) :
  writes_for u (lift c).
Proof. exists c, [], []. split; [apply writes_lift | reflexivity]. Qed.

Lemma writes_for_emit (u : string) (e : Event) :
  dispatch_event u e = true -> writes_for u (emit e).
Proof.
  intros He. exists (Normal tt), [e], []. split; [apply writes_emit |].
  cbn [forallb]. by rewrite He.
Qed.

Lemma writes_for_note_route (u : string) (r : Route) : writes_for u (note_route r).
Proof. exists (Normal tt), [], [r]. split; [apply writes_note_route | reflexivity]. Qed.

Lemma writes_for_bind {A B : Type} (u : string) (m : M A) (f : A -> M B) :
  writes_for u m -> (forall a, writes_for u (f a)) -> writes_for u (bind m f).
Proof.
  intros (c & e1 & r1 & Hm & H1) Hf. destruct c as [a| |].
  - destruct (Hf a) as (c' & e2 & r2 & Hfa & H2).
    exists c', (e1 ++ e2)%list, (r1 ++ r2)%list.
    split; [by eapply writes_bind |]. by rewrite forallb_app, H1, H2.
  - eexists _, _, _. split; [by apply writes_bind_throw | done].
  - eexists _, _, _. split; [by apply writes_bind_unmodelled | done].
Qed.

Lemma writes_for_forEach {A : Type} (u : string) (l : list A) (f : A -> M unit) :
  (forall a, writes_for u (f a)) -> writes_for u (forEach l f).
Proof.
  intros Hf. induction l as [|a l IH]; cbn [forEach].
  - apply writes_for_ret.
  - apply writes_for_bind; [apply Hf | by intros _].
Qed.

Lemma dispatch_event_status_ok (one two : Position) :
  Position_is one && Position_is two = true ->
  dispatch_event (uri textDocument)
    (StatusOkNotification (mkStatusOk (uri textDocument) [mkRange one two])) = true.
Proof. intros H. cbn. by rewrite String.eqb_refl, H. Qed.

(** [Range.create] hands on a range only when it accepts both positions. *)
Lemma writes_for_Range_create {B : Type} (u : string) (one two : Position)
  (k : Range -> M B) :
  (Position_is one && Position_is two = true -> writes_for u (k (mkRange one two))) ->
  writes_for u (bind (Range_create one two) k).
Proof.
  intros Hk. unfold Range_create.
  destruct (Position_is one && Position_is two) eqn:H.
  - destruct (Hk eq_refl) as (c & evs & rs & Hw & Hev).
    exists c, evs, rs. split; [|exact Hev]. intros w. apply Hw.
  - exists (Throw Error), [], []. split; [|reflexivity].
    apply writes_bind_throw, writes_lift.
Qed.

Lemma dispatch_event_diagnostic (rng : Range) (msg : jsval) :
  dispatch_event (uri textDocument)
    (PublishDiagnostics (uri textDocument)
       [mkDiagnostic DiagnosticSeverity.Error rng msg]) = true.
Proof. cbn. by rewrite String.eqb_refl. Qed.

Ltac writes_for_step :=
  first
    [ apply writes_for_ret | apply writes_for_lift | apply writes_for_note_route
    | apply writes_for_emit;
        first [ reflexivity | apply dispatch_event_status_ok; assumption
              | apply dispatch_event_diagnostic ]
    | apply writes_for_Range_create; intros ?
    | apply writes_for_bind; [| intros ?]
    | match goal with |- writes_for _ (if ?b then _ else _) => destruct b end
    | match goal with |- writes_for _ (match ?x with _ => _ end) => destruct x end ].

Lemma writes_for_handleIdeProgress (contents : jsval) :
  writes_for (uri textDocument) (handleIdeProgress textDocument contents).
Proof.
  unfold handleIdeProgress, sendStatusOk, console_log, sendNotification_statusOk.
  repeat writes_for_step.
Qed.

Lemma writes_for_handleIdeFailure (response : jsval) :
  writes_for (uri textDocument) (handleIdeFailure textDocument response).
Proof.
  unfold handleIdeFailure.
  destruct response as [[| | | |errs|]|]; try apply writes_for_lift.
  apply writes_for_forEach. intros err.
  unfold reportIdeError, sendDiagnostics. repeat writes_for_step.
Qed.

Lemma writes_for_handleOneResponseForDocument (data : string) :
  writes_for (uri textDocument) (handleOneResponseForDocument textDocument data).
Proof.
  unfold handleOneResponseForDocument, JSON_parse, prop_is, and_then,
    handleIdeProtocolInfo, handleIdeSuccess, console_log.
  repeat first
    [ apply writes_for_handleIdeProgress | apply writes_for_handleIdeFailure
    | writes_for_step ].
Qed.

Lemma writes_for_handleFStarResponseForDocument (chunk : string) :
  writes_for (uri textDocument) (handleFStarResponseForDocument textDocument chunk).
Proof.
  unfold handleFStarResponseForDocument. cbv zeta.
  apply writes_for_forEach. intros l. apply writes_for_handleOneResponseForDocument.
Qed.

(** For output the embedding covers (no number with a fraction, an
    exponent or more digits than a number holds exactly, and no text or
    array where a line number is read), and however the handling ends,
    all the dispatcher sends for a document is console lines, status-ok
    notifications with the document's URI and one range whose line and
    character numbers are unsigned integers, and publications of exactly
    one error diagnostic under the document's URI: it never sends a
    status-clear, never a status-ok with a negative or missing line or
    character, never publishes an empty or a longer list of diagnostics,
    never a diagnostic of another severity, and nothing under another
    URI. *)
Theorem dispatcher_sends_for_its_document_only (chunk : string) (w : World) :
  fst (handleFStarResponseForDocument textDocument chunk w) <> Unmodelled ->
  exists events,
    sent (snd (handleFStarResponseForDocument textDocument chunk w))
    = (sent w ++ events)%list
    /\ forallb (dispatch_event (uri textDocument)) events = true.
Proof.
  intros _.
  destruct (writes_for_handleFStarResponseForDocument chunk)
    as (c & evs & rs & Hw & Hev).
  exists evs. by rewrite Hw.
Qed.

End EventsOfTheDispatcher.

Lemma dispatcher_sends_for_its_document_only_witness :
  exists events,
    sent (snd (handleFStarResponseForDocument doc_a
                 (line_progress +:+ String "010" line_failure) initial))
    = (sent initial ++ events)%list
    /\ forallb (dispatch_event (uri doc_a)) events = true.
Proof.
  apply (dispatcher_sends_for_its_document_only doc_a
           (line_progress +:+ String "010" line_failure) initial).
  by vm_compute.
Defined.

Section FailureEntries.

Variable textDocument : TextDocument.




End FailureEntries.


Section DispatchEdges.

Variable textDocument : TextDocument.

Lemma bind_pure {A B : Type} (m : M A) (c : completion A) (f g : A -> M B) (w : World) :
  writes m c [] [] ->
  (forall a w', f a w' = g a w') ->
  bind m f w = bind (lift c) g w.
Proof.
  intros Hm Hfg. unfold bind, lift. rewrite (Hm w), extend_nil.
  destruct c; [apply Hfg | reflexivity | reflexivity].
Qed.

(** The dispatcher on a line that parses to a value other than [null]:
    the four tests of the [kind] dispatch, in order. *)
Lemma handleOneResponseForDocument_parsed (data : string) (r : json) (w : World) :
  data <> EmptyString ->
  JSON.parse data = JSON.POk r ->
  r <> JNull ->
  handleOneResponseForDocument textDocument data w
  = (is_info <- lift (loose_eq (field r "kind") "protocol-info") ;;
     if is_info then
       note_route ToProtocolInfo ;;; handleIdeProtocolInfo textDocument r
     else
     is_progress <- lift (both r "kind" "message" "level" "progress") ;;
     if is_progress then
       note_route ToProgress ;;;
       handleIdeProgress textDocument (field r "contents")
     else
     is_failure <- lift (both r "kind" "response" "status" "failure") ;;
     if is_failure then
       note_route ToFailure ;;;
       (if falsy (field r "response") then ret tt
        else handleIdeFailure textDocument (field r "response"))
     else
     is_success <- lift (both r "kind" "response" "status" "success") ;;
     if is_success then
       note_route ToSuccess ;;; handleIdeSuccess textDocument (field r "response")
     else
       note_route ToUnhandled ;;;
       text <- lift (to_string_val (field r "kind")) ;;
       console_log ("Unhandled response: " +:+ text)) w.
Proof.
  intros Hd Hp Hr. unfold handleOneResponseForDocument.
  apply String.eqb_neq in Hd. rewrite Hd.
  unfold bind at 1. unfold JSON_parse. rewrite Hp. unfold ret at 1. cbv beta iota.
  apply bind_pure; [by apply writes_prop_is |]. intros [|] w1; [reflexivity |].
  apply bind_pure; [by apply writes_and_then |]. intros [|] w2.
  { unfold bind. cbn [note_route]. cbv beta iota.
    unfold lift. by rewrite (get_prop_field r "contents" Hr). }
  apply bind_pure; [by apply writes_and_then |]. intros [|] w3.
  { unfold bind. cbn [note_route]. cbv beta iota.
    unfold lift. by rewrite (get_prop_field r "response" Hr). }
  apply bind_pure; [by apply writes_and_then |]. intros [|] w4.
  { unfold bind. cbn [note_route]. cbv beta iota.
    unfold lift. by rewrite (get_prop_field r "response" Hr). }
  unfold bind. cbn [note_route]. cbv beta iota.
  unfold lift. by rewrite (get_prop_field r "kind" Hr).
Qed.

Lemma bind_lift_normal {A B : Type} (a : A) (f : A -> M B) (w : World) :
  bind (lift (Normal a)) f w = f a w.
Proof. reflexivity. Qed.

Lemma loose_eq_to_string_val (v : jsval) (lit : string) (b : bool) :
  loose_eq v lit = Normal b -> exists s, to_string_val v = Normal s.
Proof.
  destruct v as [[| [] | | |items|ms]|]; cbn [loose_eq to_string_val to_string];
    try (intros _; by eexists).
  - destruct (option_map _ _); [intros _; by eexists | done].
  - destruct (assoc "toString" ms); [done | intros _; by eexists].
Qed.

Lemma to_string_val_loose_eq (v : jsval) (lit : string) (s : string) :
  to_string_val v = Normal s -> exists b, loose_eq v lit = Normal b.
Proof.
  destruct v as [[| [] | | |items|ms]|]; cbn [loose_eq to_string_val to_string];
    try (intros _; by eexists).
  - destruct (option_map _ _); [intros _; by eexists | done].
  - destruct (assoc "toString" ms); [done | intros _; by eexists].
Qed.

Lemma both_false_first (r : json) (k1 lit1 k2 lit2 : string) :
  both r k1 lit1 k2 lit2 = Normal false ->
  exists b, loose_eq (field r k1) lit1 = Normal b
            /\ (b = true -> loose_eq (field r k2) lit2 = Normal false).
Proof.
  unfold both. destruct (loose_eq (field r k1) lit1) as [[|]| |]; cbn [and_then_c];
    intros H; try done; eexists; split; try reflexivity; try done.
Qed.

Lemma route_only (r : Route) (w : World) :
  (note_route r ;;; ret tt) w = (Normal tt, extend w [] [r]).
Proof. unfold bind, note_route, ret, extend. cbn. by rewrite app_nil_r. Qed.

(** The payload of a failure response: when [response] is missing or
    falsy ([null], [false], [0], the empty string) the line has no
    effect; an empty array has none either; a payload that is truthy and
    not an array ([true], a number, a text, an object) raises
    [TypeError], since it has no [forEach]. *)
Theorem failure_payload_edge_cases (data : string) (r : json) (w : World) :
  data <> EmptyString ->
  JSON.parse data = JSON.POk r ->
  field r "kind" = Some (JStr "response") ->
  field r "status" = Some (JStr "failure") ->
  (falsy (field r "response") = true ->
   handleOneResponseForDocument textDocument data w
   = (Normal tt, extend w [] [ToFailure]))
  /\ (field r "response" = Some (JArr []) ->
      handleOneResponseForDocument textDocument data w
      = (Normal tt, extend w [] [ToFailure]))
  /\ (falsy (field r "response") = false ->
      (forall errs, field r "response" <> Some (JArr errs)) ->
      handleOneResponseForDocument textDocument data w
      = (Throw TypeError, extend w [] [ToFailure])).
Proof.
  intros Hd Hp Hk Hs.
  assert (r <> JNull) as Hr by (intros ->; done).
  rewrite (handleOneResponseForDocument_parsed data r w Hd Hp Hr).
  unfold both. rewrite Hk, Hs.
  cbn [loose_eq String.eqb Ascii.eqb Bool.eqb andb and_then_c].
  rewrite !bind_lift_normal.
  split; [|split].
  - intros ->. apply route_only.
  - intros ->. cbn [falsy handleIdeFailure forEach]. apply route_only.
  - intros -> Hna.
    assert (handleIdeFailure textDocument (field r "response")
            = lift (Throw TypeError)) as ->.
    { destruct (field r "response") as [[| | | |errs|]|]; try reflexivity.
      by destruct (Hna errs). }
    unfold bind, note_route, lift, extend. cbn. by rewrite app_nil_r.
Qed.

(** Which lines cannot make the dispatcher raise: a line that parses to
    a value other than [null] and is neither a progress message nor a
    failure response - the two tests come out false, which includes that
    the comparisons they make do not raise - is always handled normally;
    it takes one branch (protocol-info, success or unhandled), sends
    nothing to the editor and writes at most one line on the console. *)
Theorem other_lines_never_raise (data : string) (r : json) (w : World) :
  data <> EmptyString ->
  JSON.parse data = JSON.POk r ->
  r <> JNull ->
  both r "kind" "message" "level" "progress" = Normal false ->
  both r "kind" "response" "status" "failure" = Normal false ->
  exists logs route,
    handleOneResponseForDocument textDocument data w
    = (Normal tt, extend w (map ConsoleLog logs) [route])
    /\ (length logs <= 1)%nat
    /\ (route = ToProtocolInfo \/ route = ToSuccess \/ route = ToUnhandled).
Proof.
  intros Hd Hp Hr Hprog Hfail.
  rewrite (handleOneResponseForDocument_parsed data r w Hd Hp Hr), Hprog, Hfail.
  destruct (both_false_first _ _ _ _ _ Hprog) as (b1 & Hkind & _).
  destruct (loose_eq_to_string_val _ _ _ Hkind) as (text & Htext).
  destruct (to_string_val_loose_eq _ "protocol-info" _ Htext) as (b0 & Hinfo).
  rewrite Hinfo, bind_lift_normal. destruct b0.
  { exists ["FStar ide returned protocol info"], ToProtocolInfo.
    split; [|split; [cbn; lia | by left]].
    unfold bind, note_route, handleIdeProtocolInfo, console_log, emit, extend. by cbn. }
  rewrite !bind_lift_normal.
  assert (exists b, both r "kind" "response" "status" "success" = Normal b)
    as (b3 & Hsucc).
  { destruct (both_false_first _ _ _ _ _ Hfail) as (b2 & Hresp & Hstat).
    unfold both. rewrite Hresp. cbn [and_then_c]. destruct b2; [|by eexists].
    destruct (loose_eq_to_string_val _ _ _ (Hstat eq_refl)) as (t & Ht).
    apply (to_string_val_loose_eq _ "success" _ Ht). }
  rewrite Hsucc, bind_lift_normal. destruct b3.
  { exists [], ToSuccess. split; [|split; [cbn; lia | right; by left]].
    apply route_only. }
  exists ["Unhandled response: " +:+ text], ToUnhandled.
  split; [|split; [cbn; lia | right; by right]].
  unfold bind, note_route, lift, console_log, emit, extend. rewrite Htext. by cbn.
Qed.

End DispatchEdges.

Lemma failure_payload_edge_cases_witness :
  (falsy None = true ->
   handleOneResponseForDocument doc_a
     (dq "{'kind':'response','status':'failure'}") initial
   = (Normal tt, extend initial [] [ToFailure]))
  /\ (None = Some (JArr []) ->
      handleOneResponseForDocument doc_a
        (dq "{'kind':'response','status':'failure'}") initial
      = (Normal tt, extend initial [] [ToFailure]))
  /\ (falsy None = false ->
      (forall errs, None <> Some (JArr errs)) ->
      handleOneResponseForDocument doc_a
        (dq "{'kind':'response','status':'failure'}") initial
      = (Throw TypeError, extend initial [] [ToFailure])).
Proof.
  exact (failure_payload_edge_cases doc_a
           (dq "{'kind':'response','status':'failure'}")
           (JObj [("kind", JStr "response"); ("status", JStr "failure")])
           initial
           ltac:(intros H; vm_compute in H; discriminate)
           ltac:(vm_compute; reflexivity) eq_refl eq_refl).
Defined.

Lemma other_lines_never_raise_witness :
  exists logs route,
    handleOneResponseForDocument doc_a (dq "{'kind':'message','level':'info'}") initial
    = (Normal tt, extend initial (map ConsoleLog logs) [route])
    /\ (length logs <= 1)%nat
    /\ (route = ToProtocolInfo \/ route = ToSuccess \/ route = ToUnhandled).
Proof.
  exact (other_lines_never_raise doc_a (dq "{'kind':'message','level':'info'}")
           (JObj [("kind", JStr "message"); ("level", JStr "info")]) initial
           ltac:(intros H; vm_compute in H; discriminate)
           ltac:(vm_compute; reflexivity) ltac:(discriminate) eq_refl eq_refl).
Defined.

Section Validation.

Variable textDocument : TextDocument.

Lemma validateFStarDocument_state (w : World) :
  validateFStarDocument textDocument w
  = sendRequestForDocument textDocument (full_buffer_query textDocument)
      (add_sent w (validation_events textDocument)).
Proof.
  unfold validateFStarDocument, sendDiagnostics, sendStatusClear,
    sendNotification_statusClear, console_log, emit, bind, add_sent, validation_events.
  cbv beta iota zeta. cbn [documentSettings documentState processes sent routed].
  by rewrite <- !app_assoc.
Qed.

Lemma sendRequestForDocument_sent (doc : TextDocument) (msg : list (string * json))
  (w : World) :
  fst (sendRequestForDocument doc msg w) = Normal tt
  /\ sent (snd (sendRequestForDocument doc msg w)) = sent w
  /\ documentSettings (snd (sendRequestForDocument doc msg w)) = documentSettings w
  /\ routed (snd (sendRequestForDocument doc msg w)) = routed w.
Proof.
  destruct (documentState w !! uri doc) as [st|] eqn:Hst.
  - by rewrite (sendRequestForDocument_registered doc msg w st Hst).
  - by rewrite (sendRequestForDocument_unregistered doc msg w Hst).
Qed.

(** Every validation returns normally and sends, before anything is
    written to a subprocess, a console line, an empty list of
    diagnostics for the document, a second console line and a
    status-clear for the document, in this order and nothing more; for a
    document without a session these four messages are its whole effect
    (no subprocess is written to, no counter moves); with a session, the
    full-buffer query follows on the session's subprocess. *)
Theorem validateFStarDocument_clears_before_query (w : World) :
  fst (validateFStarDocument textDocument w) = Normal tt
  /\ sent (snd (validateFStarDocument textDocument w))
     = (sent w ++ validation_events textDocument)%list
  /\ (documentState w !! uri textDocument = None ->
      snd (validateFStarDocument textDocument w)
      = add_sent w (validation_events textDocument))
  /\ (forall st p,
        documentState w !! uri textDocument = Some st ->
        processes w !! fstar_ide st = Some p ->
        stdin <$> processes (snd (validateFStarDocument textDocument w)) !! fstar_ide st
        = Some (stdin p ++ [stamped (last_query_id st + 1)
                              (full_buffer_query textDocument);
                            String "010" EmptyString])%list).
Proof.
  rewrite validateFStarDocument_state.
  destruct (sendRequestForDocument_sent textDocument (full_buffer_query textDocument)
              (add_sent w (validation_events textDocument))) as (Hn & Hs & _).
  split; [exact Hn |]. split; [exact Hs |]. split.
  - intros Hnone. by rewrite sendRequestForDocument_unregistered.
  - intros st p Hst Hp.
    rewrite (sendRequestForDocument_registered _ _ _ st) by exact Hst.
    cbn [snd processes add_sent]. rewrite (stdin_after_writes _ _ _ _ _ Hp).
    cbn. by rewrite <- app_assoc.
Qed.

End Validation.

Section Isolation.

Variable fsPath : string -> string.
Variable dirname : string -> string.
Variable basename : string -> string.

Lemma step_change (doc : TextDocument) (w : World) :
  step fsPath dirname basename w (DidChangeContent doc)
  = snd (sendRequestForDocument doc (full_buffer_query doc)
           (add_sent w (validation_events doc))).
Proof.
  unfold step. cbn [handle]. unfold onDidChangeContent.
  by rewrite validateFStarDocument_state.
Qed.

Lemma step_stdout (proc : nat) (chunk : string) (w : World) :
  exists events routes,
    step fsPath dirname basename w (StdoutData proc chunk) = extend w events routes.
Proof.
  unfold step. cbn [handle]. unfold bind, get_world. cbv beta iota.
  destruct (processes w !! proc) as [p|].
  2: { exists [], []. by rewrite extend_nil. }
  destruct (stdout_listener p) as [doc|].
  2: { exists [], []. by rewrite extend_nil. }
  apply handleFStarResponseForDocument_extends.
Qed.

(** A send for another document leaves a session and its subprocess as
    they are. *)
Lemma sendRequestForDocument_other (doc : TextDocument) (msg : list (string * json))
  (w : World) (u : string) (st : IDEState) :
  sessions_numbered w ->
  documentState w !! u = Some st ->
  uri doc <> u ->
  documentState (snd (sendRequestForDocument doc msg w)) !! u = Some st
  /\ processes (snd (sendRequestForDocument doc msg w)) !! fstar_ide st
     = processes w !! fstar_ide st.
Proof.
  intros [_ Hinj] Hst Hne.
  destruct (documentState w !! uri doc) as [st'|] eqn:Hdoc.
  2: { by rewrite (sendRequestForDocument_unregistered doc msg w Hdoc). }
  rewrite (sendRequestForDocument_registered doc msg w st' Hdoc).
  cbn [snd documentState processes]. split.
  - by rewrite lookup_insert_ne.
  - assert (fstar_ide st' <> fstar_ide st) as Hpid.
    { intros Heq. apply Hne. by eapply Hinj. }
    by rewrite !list_lookup_alter_ne.
Qed.

(** In every state the server can reach, an event that is not about
    a registered document (another document is opened, changed or
    closed, any subprocess prints output, another subprocess ends)
    leaves the session of that document as it is: the same subprocess
    and the same query counter in the registry, and the subprocess record
    unchanged, with no input written to it. *)
Theorem session_untouched_by_other_inputs
  (w : World) (u : string) (st : IDEState) (i : Input) :
  reachable fsPath dirname basename w ->
  documentState w !! u = Some st ->
  ~ concerns u (fstar_ide st) i ->
  documentState (step fsPath dirname basename w i) !! u = Some st
  /\ processes (step fsPath dirname basename w i) !! fstar_ide st
     = processes w !! fstar_ide st.
Proof.
  intros Hr Hst Hne. pose proof (reachable_sessions_numbered _ _ _ _ Hr) as Hsn.
  destruct i as [doc|doc|doc|proc chunk|proc]; cbn [concerns] in Hne.
  - unfold step. cbn [handle]. rewrite onDidOpen_state.
    cbn [snd documentState processes].
    destruct Hsn as [Hnum _]. destruct (Hnum _ _ Hst) as (p & _ & Hp & _).
    pose proof (lookup_lt_Some _ _ _ Hp) as Hlt. split.
    + by rewrite !lookup_insert_ne.
    + rewrite !list_lookup_alter_ne by lia. by rewrite lookup_app_l.
  - rewrite step_change.
    apply (sendRequestForDocument_other doc (full_buffer_query doc)
             (add_sent w (validation_events doc)) u st); [| exact Hst | exact Hne].
    by eapply sessions_numbered_frame; [| | exact Hsn].
  - done.
  - destruct (step_stdout proc chunk w) as (evs & rs & ->). done.
  - unfold step. cbn. split; [done |]. by rewrite list_lookup_alter_ne.
Qed.

Lemma unowned_step (w : World) (proc : nat) (i : Input) :
  (proc < length (processes w))%nat ->
  unowned w proc ->
  unowned (step fsPath dirname basename w i) proc.
Proof.
  intros Hlt Hun. destruct i as [doc|doc|doc|pr chunk|pr].
  - unfold step. cbn [handle]. rewrite onDidOpen_state. cbn [snd].
    intros u st. cbn [documentState]. rewrite insert_insert_eq.
    destruct (decide (u = uri doc)) as [->|Hne].
    + rewrite lookup_insert_eq. intros ?; simplify_eq. cbn. lia.
    + rewrite lookup_insert_ne by done. apply Hun.
  - rewrite step_change. intros u st.
    destruct (documentState w !! uri doc) as [st'|] eqn:Hdoc.
    + rewrite (sendRequestForDocument_registered doc _ _ st') by exact Hdoc.
      cbn [snd documentState add_sent].
      destruct (decide (u = uri doc)) as [->|Hne].
      * rewrite lookup_insert_eq. intros ?; simplify_eq. cbn. by eapply Hun.
      * rewrite lookup_insert_ne by done. apply Hun.
    + rewrite sendRequestForDocument_unregistered by exact Hdoc. apply Hun.
  - exact Hun.
  - destruct (step_stdout pr chunk w) as (evs & rs & ->). exact Hun.
  - exact Hun.
Qed.

Lemma unowned_process_step (w : World) (proc : nat) (p : ChildProcess) (i : Input) :
  processes w !! proc = Some p ->
  unowned w proc ->
  i <> ProcessExit proc ->
  processes (step fsPath dirname basename w i) !! proc = Some p.
Proof.
  intros Hp Hun Hi. pose proof (lookup_lt_Some _ _ _ Hp) as Hlt.
  destruct i as [doc|doc|doc|pr chunk|pr].
  - unfold step. cbn [handle]. rewrite onDidOpen_state. cbn [snd processes].
    rewrite !list_lookup_alter_ne by lia. by rewrite lookup_app_l.
  - rewrite step_change.
    destruct (documentState w !! uri doc) as [st'|] eqn:Hdoc.
    + rewrite (sendRequestForDocument_registered doc _ _ st') by exact Hdoc.
      cbn [snd processes add_sent].
      pose proof (Hun _ _ Hdoc). by rewrite !list_lookup_alter_ne.
    + by rewrite sendRequestForDocument_unregistered.
  - exact Hp.
  - destruct (step_stdout pr chunk w) as (evs & rs & ->). exact Hp.
  - unfold step. cbn. rewrite list_lookup_alter_ne; [done |]. congruence.
Qed.

Lemma unowned_process_run (inputs : list Input) (w : World) (proc : nat)
  (p : ChildProcess) :
  processes w !! proc = Some p ->
  unowned w proc ->
  Forall (fun i => i <> ProcessExit proc) inputs ->
  processes (run fsPath dirname basename w inputs) !! proc = Some p
  /\ unowned (run fsPath dirname basename w inputs) proc.
Proof.
  revert w. induction inputs as [|i inputs IH]; intros w Hp Hun Hall; [done |].
  apply Forall_cons in Hall as [Hi Hall]. cbn [run fold_left].
  apply IH; [| | exact Hall].
  - by apply unowned_process_step.
  - apply unowned_step; [by eapply lookup_lt_Some | exact Hun].
Qed.

(** When a document that has a session is opened again, the
    subprocess of the old session is not stopped and no longer belongs
    to any session: whatever happens afterwards, as long as that
    subprocess does not end by itself, its record stays exactly as it
    was at the second open - still running, and never written to
    again. *)
Theorem reopened_document_abandons_subprocess
  (w : World) (doc : TextDocument) (old : IDEState) (p : ChildProcess)
  (inputs : list Input) :
  reachable fsPath dirname basename w ->
  documentState w !! uri doc = Some old ->
  processes w !! fstar_ide old = Some p ->
  Forall (fun i => i <> ProcessExit (fstar_ide old)) inputs ->
  processes (run fsPath dirname basename w (DidOpen doc :: inputs)) !! fstar_ide old
  = Some p
  /\ unowned (run fsPath dirname basename w (DidOpen doc :: inputs)) (fstar_ide old).
Proof.
  intros Hr Hold Hp Hall.
  pose proof (reachable_sessions_numbered _ _ _ _ Hr) as [Hnum Hinj].
  pose proof (lookup_lt_Some _ _ _ Hp) as Hlt.
  cbn [run fold_left]. apply unowned_process_run; [| | exact Hall].
  - by eapply onDidOpen_keeps_replaced_subprocess.
  - unfold step. cbn [handle]. rewrite onDidOpen_state. cbn [snd].
    intros u st. cbn [documentState]. rewrite insert_insert_eq.
    destruct (decide (u = uri doc)) as [->|Hne].
    + rewrite lookup_insert_eq. intros ?; simplify_eq. cbn. lia.
    + rewrite lookup_insert_ne by done. intros Hu Heq.
      apply Hne. by eapply Hinj.
Qed.

End Isolation.

Lemma session_untouched_by_other_inputs_witness :
  let w' :=
    step example_fsPath example_dirname example_basename opened_a (DidOpen doc_b) in
  documentState w' !! "file:///a.fst" = Some (mkIDEState 0 1)
  /\ processes w' !! 0%nat = processes opened_a !! 0%nat.
Proof.
  apply (session_untouched_by_other_inputs example_fsPath example_dirname
           example_basename opened_a "file:///a.fst" (mkIDEState 0 1) (DidOpen doc_b)).
  - apply reachable_opened_a.
  - by vm_compute.
  - cbn. discriminate.
Defined.

Lemma reopened_document_abandons_subprocess_witness :
  let later :=
    run example_fsPath example_dirname example_basename opened_a
        [DidOpen doc_a; DidChangeContent doc_a; StdoutData 0 line_info;
         DidClose doc_a] in
  processes later !! 0%nat
  = Some (mkProc "fstar.exe" ["--ide"; "a.fst"] "/"
            [stamped 1 (vfs_add_query doc_a); String "010" EmptyString]
            (Some doc_a) true)
  /\ unowned later 0.
Proof.
  apply (reopened_document_abandons_subprocess example_fsPath example_dirname
           example_basename opened_a doc_a (mkIDEState 0 1)
           (mkProc "fstar.exe" ["--ide"; "a.fst"] "/"
              [stamped 1 (vfs_add_query doc_a); String "010" EmptyString]
              (Some doc_a) true)
           [DidChangeContent doc_a; StdoutData 0 line_info; DidClose doc_a]).
  - apply reachable_opened_a.
  - by vm_compute.
  - by vm_compute.
  - repeat (constructor; [discriminate |]). constructor.
Defined.

Section Growth.

Variable fsPath : string -> string.
Variable dirname : string -> string.
Variable basename : string -> string.

Lemma same_subprocess_refl (p : ChildProcess) : same_subprocess p p.
Proof. by repeat split. Qed.

Lemma same_subprocess_trans (p q r : ChildProcess) :
  same_subprocess p q -> same_subprocess q r -> same_subprocess p r.
Proof. unfold same_subprocess. intros (? & ? & ? & ?) (? & ? & ? & ?). repeat split; congruence. Qed.

Lemma alter_same_subprocess (f : ChildProcess -> ChildProcess) (k : nat)
  (ps : list ChildProcess) (proc : nat) (p : ChildProcess) :
  (forall q, same_subprocess q (f q)) ->
  (exists p', ps !! proc = Some p' /\ same_subprocess p p') ->
  exists p', alter f k ps !! proc = Some p' /\ same_subprocess p p'.
Proof.
  intros Hf (p' & Hp' & Hs). destruct (decide (k = proc)) as [->|Hne].
  - exists (f p'). rewrite list_lookup_alter_eq, Hp'. split; [done |].
    eapply same_subprocess_trans; [exact Hs | apply Hf].
  - exists p'. by rewrite list_lookup_alter_ne.
Qed.

Lemma write_to_same_subprocess (text : string) (q : ChildProcess) :
  same_subprocess q (write_to text q).
Proof. by repeat split. Qed.

Lemma listen_for_same_subprocess (doc : TextDocument) (q : ChildProcess) :
  same_subprocess q (listen_for doc q).
Proof. by repeat split. Qed.

Lemma step_same_subprocess (w : World) (i : Input) (proc : nat) (p : ChildProcess) :
  (exists p', processes w !! proc = Some p' /\ same_subprocess p p') ->
  i <> ProcessExit proc ->
  exists p', processes (step fsPath dirname basename w i) !! proc = Some p'
             /\ same_subprocess p p'.
Proof.
  intros Hp Hi. destruct i as [doc|doc|doc|pr chunk|pr].
  - unfold step. cbn [handle]. rewrite onDidOpen_state. cbn [snd processes].
    do 2 (apply alter_same_subprocess; [apply write_to_same_subprocess |]).
    apply alter_same_subprocess; [apply listen_for_same_subprocess |].
    destruct Hp as (p' & Hp' & Hs). exists p'. split; [|done].
    rewrite lookup_app_l; [done | by eapply lookup_lt_Some].
  - rewrite step_change.
    destruct (documentState w !! uri doc) as [st'|] eqn:Hdoc.
    + rewrite (sendRequestForDocument_registered doc _ _ st') by exact Hdoc.
      cbn [snd processes add_sent].
      by do 2 (apply alter_same_subprocess; [apply write_to_same_subprocess |]).
    + by rewrite sendRequestForDocument_unregistered.
  - exact Hp.
  - destruct (step_stdout fsPath dirname basename pr chunk w) as (evs & rs & ->).
    exact Hp.
  - unfold step. cbn. destruct Hp as (p' & Hp' & Hs). exists p'. split; [|done].
    rewrite list_lookup_alter_ne; [done | congruence].
Qed.

Lemma step_table_length (w : World) (i : Input) :
  length (processes (step fsPath dirname basename w i))
  = (length (processes w) + (if is_open i then 1 else 0))%nat.
Proof.
  destruct i as [doc|doc|doc|pr chunk|pr]; cbn [is_open].
  - unfold step. cbn [handle]. rewrite onDidOpen_state. cbn [snd processes].
    rewrite !length_alter, length_app. reflexivity.
  - rewrite step_change.
    destruct (documentState w !! uri doc) as [st'|] eqn:Hdoc.
    + rewrite (sendRequestForDocument_registered doc _ _ st') by exact Hdoc.
      cbn [snd processes add_sent]. rewrite !length_alter. lia.
    + rewrite sendRequestForDocument_unregistered by exact Hdoc. cbn. lia.
  - cbn. lia.
  - destruct (step_stdout fsPath dirname basename pr chunk w) as (evs & rs & ->).
    cbn. lia.
  - unfold step. cbn. rewrite length_alter. lia.
Qed.

Lemma step_registry_domain (w : World) (i : Input) :
  dom (documentState (step fsPath dirname basename w i))
  = opened_uris [i] ∪ dom (documentState w).
Proof.
  destruct i as [doc|doc|doc|pr chunk|pr]; cbn [opened_uris].
  - unfold step. cbn [handle]. rewrite onDidOpen_state. cbn [snd documentState].
    by rewrite insert_insert_eq, dom_insert_L, (right_id_L ∅ (∪)).
  - rewrite step_change, (left_id_L ∅ (∪)).
    destruct (documentState w !! uri doc) as [st'|] eqn:Hdoc.
    + rewrite (sendRequestForDocument_registered doc _ _ st') by exact Hdoc.
      cbn [snd documentState add_sent].
      by rewrite dom_insert_lookup_L by (by rewrite Hdoc).
    + by rewrite sendRequestForDocument_unregistered by exact Hdoc.
  - by rewrite (left_id_L ∅ (∪)).
  - destruct (step_stdout fsPath dirname basename pr chunk w) as (evs & rs & ->).
    by rewrite (left_id_L ∅ (∪)).
  - by rewrite (left_id_L ∅ (∪)).
Qed.

Lemma opened_uris_cons (i : Input) (inputs : list Input) :
  opened_uris (i :: inputs) = opened_uris [i] ∪ opened_uris inputs.
Proof.
  destruct i; cbn [opened_uris];
    by rewrite ?(right_id_L ∅ (∪)), ?(left_id_L ∅ (∪)).
Qed.

(** Sessions and subprocesses are never removed.  After any sequence
    of events, the documents that have a session are those that had one
    before together with every document opened since, closed or not, and
    the table of subprocesses has grown by exactly one per open event:
    no other event starts a subprocess and none removes one. *)
Theorem registry_and_table_only_grow (w : World) (inputs : list Input) :
  dom (documentState (run fsPath dirname basename w inputs))
  = opened_uris inputs ∪ dom (documentState w)
  /\ length (processes (run fsPath dirname basename w inputs))
     = (length (processes w) + length (List.filter is_open inputs))%nat.
Proof.
  revert w. induction inputs as [|i inputs IH]; intros w.
  - cbn. split; [by rewrite (left_id_L ∅ (∪)) | lia].
  - cbn [run fold_left]. destruct (IH (step fsPath dirname basename w i)) as [Hd Hl].
    unfold run in Hd, Hl. split.
    + rewrite Hd, step_registry_domain, (opened_uris_cons i inputs).
      by rewrite (assoc_L (∪)), (comm_L (∪) (opened_uris inputs)).
    + rewrite Hl, step_table_length. cbn [List.filter].
      destruct (is_open i); cbn [length]; lia.
Qed.

(** The server never stops a subprocess.  Whatever events follow -
    its document closed, changed or opened again, output arriving - a
    subprocess stays in the table as the same program with the same
    arguments and working directory, and it is running afterwards
    exactly if it was running before, unless the subprocess ended by
    itself. *)
Theorem subprocess_ends_only_by_itself
  (w : World) (inputs : list Input) (proc : nat) (p : ChildProcess) :
  processes w !! proc = Some p ->
  Forall (fun i => i <> ProcessExit proc) inputs ->
  exists p',
    processes (run fsPath dirname basename w inputs) !! proc = Some p'
    /\ same_subprocess p p'.
Proof.
  intros Hp Hall.
  assert (exists p', processes w !! proc = Some p' /\ same_subprocess p p') as H.
  { exists p. split; [done | apply same_subprocess_refl]. }
  clear Hp. revert w H.
  induction inputs as [|i inputs IH]; intros w H; [exact H |].
  apply Forall_cons in Hall as [Hi Hall]. cbn [run fold_left].
  apply (IH Hall). by apply step_same_subprocess.
Qed.

End Growth.

Lemma subprocess_ends_only_by_itself_witness :
  exists p',
    processes (run example_fsPath example_dirname example_basename opened_a
                 [DidChangeContent doc_a; DidClose doc_a; DidOpen doc_a;
                  ProcessExit 1])
      !! 0%nat = Some p'
    /\ same_subprocess
         (mkProc "fstar.exe" ["--ide"; "a.fst"] "/"
            [stamped 1 (vfs_add_query doc_a); String "010" EmptyString]
            (Some doc_a) true) p'.
Proof.
  apply (subprocess_ends_only_by_itself example_fsPath example_dirname
           example_basename opened_a
           [DidChangeContent doc_a; DidClose doc_a; DidOpen doc_a; ProcessExit 1]
           0%nat).
  - by vm_compute.
  - repeat (constructor; [discriminate |]). constructor.
Defined.

Section Listeners.

Variable fsPath : string -> string.
Variable dirname : string -> string.
Variable basename : string -> string.

Lemma alter_listener (f : ChildProcess -> ChildProcess) (k : nat)
  (ps : list ChildProcess) (j : nat) :
  (forall q, stdout_listener (f q) = stdout_listener q) ->
  stdout_listener <$> alter f k ps !! j = stdout_listener <$> ps !! j.
Proof.
  intros Hf. destruct (decide (k = j)) as [->|Hne].
  - rewrite list_lookup_alter_eq. destruct (ps !! j); cbn; [by rewrite Hf | done].
  - by rewrite list_lookup_alter_ne.
Qed.

Lemma listeners_attributed_step (w : World) (i : Input) :
  listeners_attributed w ->
  listeners_attributed (step fsPath dirname basename w i).
Proof.
  intros Hw. destruct i as [doc|doc|doc|pr chunk|pr].
  - unfold step. cbn [handle]. rewrite onDidOpen_state. cbn [snd].
    intros u st. cbn [documentState processes]. rewrite insert_insert_eq.
    destruct (decide (u = uri doc)) as [->|Hne].
    + rewrite lookup_insert_eq. intros ?; simplify_eq. cbn [fstar_ide].
      exists doc. split; [|done].
      rewrite !alter_listener by done.
      rewrite list_lookup_alter_eq, lookup_app_r by lia.
      by rewrite Nat.sub_diag.
    + rewrite lookup_insert_ne by done. intros Hu.
      destruct (Hw _ _ Hu) as (d & Hd & Hud). exists d. split; [|done].
      assert (fstar_ide st < length (processes w))%nat as Hlt.
      { destruct (processes w !! fstar_ide st) eqn:E; [|done].
        by eapply lookup_lt_Some. }
      rewrite !alter_listener by done.
      rewrite list_lookup_alter_ne by lia. by rewrite lookup_app_l.
  - rewrite step_change.
    destruct (documentState w !! uri doc) as [st'|] eqn:Hdoc.
    + rewrite (sendRequestForDocument_registered doc _ _ st') by exact Hdoc.
      cbn [snd]. intros u st. cbn [documentState processes add_sent].
      rewrite !alter_listener by done.
      destruct (decide (u = uri doc)) as [->|Hne].
      * rewrite lookup_insert_eq. intros ?; simplify_eq. cbn [fstar_ide].
        by apply Hw.
      * rewrite lookup_insert_ne by done. apply Hw.
    + rewrite sendRequestForDocument_unregistered by exact Hdoc. exact Hw.
  - exact Hw.
  - destruct (step_stdout fsPath dirname basename pr chunk w) as (evs & rs & ->).
    exact Hw.
  - unfold step. cbn. intros u st Hu. cbn [processes].
    rewrite alter_listener by done. by apply Hw.
Qed.

Lemma reachable_listeners_attributed (w : World) :
  reachable fsPath dirname basename w -> listeners_attributed w.
Proof.
  induction 1 as [|w i _ IH _].
  - intros u st Hu. cbn in Hu. by rewrite lookup_empty in Hu.
  - by apply listeners_attributed_step.
Qed.

(** In every state the server can reach, output of the subprocess of
    a registered session is handled for the document of that session:
    for a chunk the embedding covers, the server state changes by the
    messages sent only (registry, counters and subprocesses stay), and
    they are console lines, status-ok notifications and single error
    diagnostics for the URI under which the session is registered. *)
Theorem session_output_is_reported_for_its_document
  (w : World) (u : string) (st : IDEState) (chunk : string) :
  reachable fsPath dirname basename w ->
  documentState w !! u = Some st ->
  fst (handle fsPath dirname basename (StdoutData (fstar_ide st) chunk) w)
    <> Unmodelled ->
  exists events routes,
    step fsPath dirname basename w (StdoutData (fstar_ide st) chunk)
    = extend w events routes
    /\ forallb (dispatch_event u) events = true.
Proof.
  intros Hr Hst _.
  destruct (reachable_listeners_attributed w Hr u st Hst) as (d & Hd & <-).
  unfold step. cbn [handle]. unfold bind, get_world. cbv beta iota.
  destruct (processes w !! fstar_ide st) as [p|]; [|done].
  injection Hd as Hd. rewrite Hd.
  destruct (writes_for_handleFStarResponseForDocument d chunk)
    as (c & evs & rs & Hw & Hev).
  exists evs, rs. by rewrite Hw.
Qed.

Lemma step_settings (w : World) (i : Input) :
  documentSettings w = ∅ ->
  documentSettings (step fsPath dirname basename w i) = ∅.
Proof.
  intros Hw. destruct i as [doc|doc|doc|pr chunk|pr].
  - unfold step. cbn [handle]. by rewrite onDidOpen_state.
  - rewrite step_change.
    by destruct (sendRequestForDocument_sent doc (full_buffer_query doc)
                   (add_sent w (validation_events doc))) as (_ & _ & -> & _).
  - unfold step. cbn. by rewrite Hw, delete_empty.
  - by destruct (step_stdout fsPath dirname basename pr chunk w) as (evs & rs & ->).
  - done.
Qed.

(** Nothing in the document life cycle ever stores settings for a
    document, so in every state the server can reach the close handler
    has nothing to delete: closing a document returns normally and
    leaves the whole server state as it was - registry, counters,
    subprocesses and messages sent. *)
Theorem onDidClose_changes_nothing (w : World) (doc : TextDocument) :
  reachable fsPath dirname basename w ->
  onDidClose doc w = (Normal tt, w).
Proof.
  intros Hr.
  assert (documentSettings w = ∅) as Hs.
  { induction Hr as [|w i _ IH _]; [done | by apply step_settings]. }
  rewrite onDidClose_state, Hs, delete_empty, <- Hs. by destruct w.
Qed.

End Listeners.

Lemma session_output_is_reported_for_its_document_witness :
  exists events routes,
    step example_fsPath example_dirname example_basename changed_a
         (StdoutData 0 (line_progress +:+ String "010" line_failure))
    = extend changed_a events routes
    /\ forallb (dispatch_event "file:///a.fst") events = true.
Proof.
  apply (session_output_is_reported_for_its_document example_fsPath example_dirname
           example_basename changed_a "file:///a.fst" (mkIDEState 0 2)).
  - apply reachable_changed_a.
  - by vm_compute.
  - by vm_compute.
Defined.

Lemma onDidClose_changes_nothing_witness :
  onDidClose doc_a changed_a = (Normal tt, changed_a).
Proof.
  apply (onDidClose_changes_nothing example_fsPath example_dirname example_basename).
  apply reachable_changed_a.
Defined.

Section Configuration.

Lemma get_prop_reads (v : jsval) (k : string) :
  nullish v = false -> get_prop v k = Normal (reads v k).
Proof. destruct v as [[| | | | |]|]; done. Qed.

Lemma get_prop_nullish (v : jsval) (k : string) :
  nullish v = true -> get_prop v k = Throw TypeError.
Proof. destruct v as [[| | | | |]|]; done. Qed.

Lemma falsy_reads (v : jsval) (k : string) : falsy v = true -> reads v k = None.
Proof. destruct v as [[|[]|[| |]| | |]|]; done. Qed.

Lemma truthy_not_nullish (v : jsval) : falsy v = false -> nullish v = false.
Proof. destruct v as [[| | | | |]|]; done. Qed.

Lemma has_nested_path (o : jsval) (k1 k2 : string) :
  nullish o = false ->
  has_nested o k1 k2 = Normal (truthy (path o [k1; k2])).
Proof.
  intros Ho. unfold has_nested, path. cbn [fold_left].
  rewrite (get_prop_reads o k1 Ho). cbn [and_then_c].
  destruct (falsy (reads o k1)) eqn:Hf.
  - by rewrite (falsy_reads _ k2 Hf).
  - by rewrite (get_prop_reads _ k2 (truthy_not_nullish _ Hf)).
Qed.

Lemma has_nested3_path (o : jsval) (k1 k2 k3 : string) :
  nullish o = false ->
  has_nested3 o k1 k2 k3 = Normal (truthy (path o [k1; k2; k3])).
Proof.
  intros Ho. unfold has_nested3, path. cbn [fold_left].
  rewrite (get_prop_reads o k1 Ho). cbn [and_then_c].
  destruct (falsy (reads o k1)) eqn:Hf.
  { by rewrite (falsy_reads _ k2 Hf). }
  rewrite (get_prop_reads _ k2 (truthy_not_nullish _ Hf)). cbn [and_then_c].
  destruct (falsy (reads (reads o k1) k2)) eqn:Hf2.
  { by rewrite (falsy_reads _ k3 Hf2). }
  by rewrite (get_prop_reads _ k3 (truthy_not_nullish _ Hf2)).
Qed.

Lemma onInitialize_state (params : jsval) (c : Config) :
  nullish params = false ->
  nullish (path params ["capabilities"]) = false ->
  onInitialize params c
  = (Normal (InitializeResult
               (truthy (path params ["capabilities"; "workspace"; "workspaceFolders"]))),
     mkConfig
       (truthy (path params ["capabilities"; "workspace"; "configuration"]))
       (truthy (path params ["capabilities"; "workspace"; "workspaceFolders"]))
       (truthy (path params ["capabilities"; "textDocument"; "publishDiagnostics";
                             "relatedInformation"]))
       (globalSettings c)).
Proof.
  intros Hp Hc. unfold onInitialize, bindK, evalK.
  rewrite (get_prop_reads params "capabilities" Hp).
  change (path params ["capabilities"]) with (reads params "capabilities") in Hc.
  rewrite !(has_nested_path _ _ _ Hc), (has_nested3_path _ _ _ _ Hc).
  reflexivity.
Qed.

(** The initialize handler raises exactly when the parameters or
    their [capabilities] are [undefined] or [null]; it is then a
    [TypeError] and no flag has changed. In every other case it returns
    normally, whichever nested capability objects are missing: each of
    the three flags is set when the capability at the end of its chain
    of properties is present and truthy and cleared otherwise, the
    global settings stay, and the result announces workspace folders
    exactly when that flag is set. *)
Theorem onInitialize_reads_capabilities (params : jsval) (c : Config) :
  if nullish params || nullish (path params ["capabilities"])
  then onInitialize params c = (Throw TypeError, c)
  else
    onInitialize params c
    = (Normal (InitializeResult
                 (truthy (path params ["capabilities"; "workspace"; "workspaceFolders"]))),
       mkConfig
         (truthy (path params ["capabilities"; "workspace"; "configuration"]))
         (truthy (path params ["capabilities"; "workspace"; "workspaceFolders"]))
         (truthy (path params ["capabilities"; "textDocument"; "publishDiagnostics";
                               "relatedInformation"]))
         (globalSettings c))
    /\ path (Some (InitializeResult
                     (truthy (path params ["capabilities"; "workspace";
                                           "workspaceFolders"]))))
         ["capabilities"; "workspace"; "workspaceFolders"; "supported"]
       = (if truthy (path params ["capabilities"; "workspace"; "workspaceFolders"])
          then Some (JBool true) else None).
Proof.
  destruct (nullish params) eqn:Hp; cbn [orb].
  { unfold onInitialize, bindK, evalK. by rewrite (get_prop_nullish _ _ Hp). }
  destruct (nullish (path params ["capabilities"])) eqn:Hc.
  { unfold onInitialize, bindK, evalK.
    rewrite (get_prop_reads params "capabilities" Hp).
    change (path params ["capabilities"]) with (reads params "capabilities") in Hc.
    unfold has_nested. by rewrite (get_prop_nullish _ _ Hc). }
  split; [by apply onInitialize_state |].
  by destruct (truthy (path params ["capabilities"; "workspace"; "workspaceFolders"])).
Qed.

Lemma onDidChangeConfiguration_with_capability (change : jsval) (c : Config) (w : World) :
  hasConfigurationCapability c = true ->
  onDidChangeConfiguration change c w = (Normal tt, (c, clear_documentSettings w)).
Proof. intros H. unfold onDidChangeConfiguration. by rewrite H. Qed.

Lemma onDidChangeConfiguration_without_capability
  (change : jsval) (c : Config) (w : World) :
  hasConfigurationCapability c = false ->
  onDidChangeConfiguration change c w
  = if nullish change || nullish (path change ["settings"])
    then (Throw TypeError, (c, w))
    else (Normal tt,
          (mkConfig false (hasWorkspaceFolderCapability c)
                    (hasDiagnosticRelatedInformationCapability c)
                    (or_default (path change ["settings"; "languageServerExample"])),
           w)).
Proof.
  intros H. unfold onDidChangeConfiguration. rewrite H.
  destruct (nullish change) eqn:Hc; cbn [orb].
  { by rewrite (get_prop_nullish _ _ Hc). }
  rewrite (get_prop_reads _ _ Hc). cbn [and_then_c].
  change (path change ["settings"]) with (reads change "settings").
  destruct (nullish (reads change "settings")) eqn:Hs.
  { by rewrite (get_prop_nullish _ _ Hs). }
  rewrite (get_prop_reads _ _ Hs). unfold set_globalSettings. cbn [snd].
  by rewrite H.
Qed.

(** What a configuration notification does is fixed by the initialize
    request before it. If the client announced
    [capabilities.workspace.configuration], the notification only empties
    the settings cache and never raises, whatever it carries. If not, it
    raises [TypeError] when the notification or its [settings] is
    [undefined] or [null], leaving everything as it was, and otherwise
    assigns [settings.languageServerExample] as the global settings, or
    the default settings when that value is missing or falsy. *)
Theorem configuration_change_after_initialize
  (params change : jsval) (c : Config) (w : World) :
  nullish params = false ->
  nullish (path params ["capabilities"]) = false ->
  let c' := snd (onInitialize params c) in
  onDidChangeConfiguration change c' w
  = if truthy (path params ["capabilities"; "workspace"; "configuration"])
    then (Normal tt, (c', clear_documentSettings w))
    else if nullish change || nullish (path change ["settings"])
    then (Throw TypeError, (c', w))
    else (Normal tt,
          (mkConfig false (hasWorkspaceFolderCapability c')
                    (hasDiagnosticRelatedInformationCapability c')
                    (or_default (path change ["settings"; "languageServerExample"])),
           w)).
Proof.
  intros Hp Hc. cbv zeta. rewrite (onInitialize_state params c Hp Hc). cbn [snd].
  destruct (truthy (path params ["capabilities"; "workspace"; "configuration"])) eqn:Hb.
  - by apply onDidChangeConfiguration_with_capability.
  - by rewrite onDidChangeConfiguration_without_capability.
Qed.

Lemma offered_settings_app (l1 l2 : list ConfigInput) :
  offered_settings (l1 ++ l2) = (offered_settings l1 ++ offered_settings l2)%list.
Proof.
  induction l1 as [|i l1 IH]; [reflexivity |].
  destruct i as [params|[change|]]; cbn [app offered_settings]; try exact IH.
  destruct (field change "settings") as [settings|]; [|exact IH].
  destruct (field settings "languageServerExample") as [j|]; [|exact IH].
  destruct (falsy (Some j)); [exact IH |]. cbn [app]. by rewrite IH.
Qed.

Lemma onInitialize_globalSettings (params : jsval) (c : Config) :
  globalSettings (snd (onInitialize params c)) = globalSettings c.
Proof.
  unfold onInitialize, bindK, evalK.
  destruct (get_prop params "capabilities") as [caps| |]; [|done..].
  destruct (has_nested caps "workspace" "configuration") as [b1| |]; [|done..].
  destruct (has_nested caps "workspace" "workspaceFolders") as [b2| |]; [|done..].
  by destruct (has_nested3 caps "textDocument" "publishDiagnostics"
                 "relatedInformation") as [b3| |].
Qed.

Lemma or_default_offered (v : jsval) :
  (or_default v = defaultSettings /\ falsy v = true)
  \/ (v = Some (or_default v) /\ falsy v = false).
Proof.
  destruct v as [j|]; [|by left]. unfold or_default.
  destruct (falsy (Some j)) eqn:Hf; [by left | by right].
Qed.

(** From the start of the server and after any sequence of initialize
    requests and configuration notifications, whether they return or
    raise, the global settings are the default settings or a truthy
    [settings.languageServerExample] value one of the notifications
    carried: they are never [null], [false], [0] or the empty string. The
    sessions, the subprocesses and the messages sent are not touched. *)
Theorem globalSettings_default_or_offered (w : World) (inputs : list ConfigInput) :
  (globalSettings (fst (config_run (initial_config, w) inputs)) = defaultSettings
   \/ In (globalSettings (fst (config_run (initial_config, w) inputs)))
        (offered_settings inputs))
  /\ falsy (Some (globalSettings (fst (config_run (initial_config, w) inputs)))) = false
  /\ documentState (snd (config_run (initial_config, w) inputs)) = documentState w
  /\ processes (snd (config_run (initial_config, w) inputs)) = processes w
  /\ sent (snd (config_run (initial_config, w) inputs)) = sent w.
Proof.
  induction inputs as [|i inputs IH] using rev_ind.
  - cbn. by repeat split; [left |..].
  - unfold config_run in *. rewrite fold_left_app. cbn [fold_left].
    destruct (fold_left config_step inputs (initial_config, w)) as [c0 w0].
    cbn [fst snd] in IH. destruct IH as (Hg & Hf & Hd & Hpr & Hs).
    rewrite offered_settings_app.
    destruct i as [params|change]; cbn [config_step fst snd].
    + rewrite onInitialize_globalSettings.
      split; [|done].
      destruct Hg as [Hg|Hg]; [by left | right; apply in_or_app; by left].
    + destruct (hasConfigurationCapability c0) eqn:Hcap.
      * rewrite onDidChangeConfiguration_with_capability by done. cbn [fst snd].
        split; [|done].
        destruct Hg as [Hg|Hg]; [by left | right; apply in_or_app; by left].
      * rewrite onDidChangeConfiguration_without_capability by done.
        destruct (nullish change || nullish (path change ["settings"])) eqn:Hn;
          cbn [fst snd].
        { split; [|done].
          destruct Hg as [Hg|Hg]; [by left | right; apply in_or_app; by left]. }
        cbn [globalSettings].
        apply orb_false_iff in Hn as [Hn1 Hn2].
        destruct change as [change|]; [|done].
        assert (offered_settings [DidChangeConfiguration (Some change)]
                = match path (Some change) ["settings"; "languageServerExample"] with
                  | Some j => if falsy (Some j) then [] else [j]
                  | None => []
                  end) as Hoff.
        { unfold path. cbn [fold_left reads offered_settings].
          destruct (field change "settings") as [settings|]; [|done].
          cbn [reads]. by destruct (field settings "languageServerExample"). }
        rewrite Hoff.
        destruct (or_default_offered
                    (path (Some change) ["settings"; "languageServerExample"]))
          as [[Hdef Hfal]|[Hval Hfal]].
        -- split; [by left |]. split; [by rewrite Hdef | done].
        -- split; [|split; [|done]].
           ++ right. apply in_or_app. right.
              destruct (path (Some change) ["settings"; "languageServerExample"])
                as [j|]; [|done].
              rewrite Hfal. unfold or_default. rewrite Hfal. by left.
           ++ by rewrite <- Hval.
Qed.

End Configuration.

Lemma configuration_change_after_initialize_witness :
  onDidChangeConfiguration None
    (snd (onInitialize params_with_configuration initial_config)) initial
  = (Normal tt,
     (mkConfig true false false defaultSettings, clear_documentSettings initial))
  /\ onDidChangeConfiguration None
       (snd (onInitialize params_without_configuration initial_config)) initial
     = (Throw TypeError, (initial_config, initial))
  /\ onDidChangeConfiguration change_with_settings
       (snd (onInitialize params_without_configuration initial_config)) initial
     = (Normal tt,
        (mkConfig false false false (JObj [("maxNumberOfProblems", JNum 5)]),
         initial)).
Proof.
  split; [|split].
  - apply (configuration_change_after_initialize params_with_configuration
             None initial_config initial); reflexivity.
  - apply (configuration_change_after_initialize params_without_configuration
             None initial_config initial); reflexivity.
  - apply (configuration_change_after_initialize params_without_configuration
             change_with_settings initial_config initial); reflexivity.
Defined.

Section ProgressEdges.

Variable textDocument : TextDocument.

Lemma Position_is_spec_remap (p : Z * Z) :
  Position_is (spec_remap p) = true <-> valid_position p.
Proof.
  unfold Position_is, spec_remap, valid_position, is_uinteger, uinteger_MAX_VALUE.
  cbn [line character fst snd].
  rewrite !andb_true_iff, !Z.leb_le. lia.
Qed.

(** A progress message of the stage "full-buffer-fragment-ok" is
    reported or rejected as a whole. When [contents.ranges] is missing
    or [null] the handler raises [TypeError]; when its begin and end are
    pairs of integers (of a size a number holds exactly) and one of them
    is not a valid position of the tool (a line below 1, a negative
    column, or a number beyond the range of an unsigned integer) the
    range constructor of the library raises [Error]. In both cases
    nothing has been sent and the state is unchanged. *)
Theorem handleIdeProgress_rejects_invalid_positions (contents : json) (w : World) :
  contents <> JNull ->
  loose_eq (field contents "stage") "full-buffer-fragment-ok" = Normal true ->
  (nullish (field contents "ranges") = true ->
   handleIdeProgress textDocument (Some contents) w = (Throw TypeError, w))
  /\ (forall b e : Z * Z,
        range_of (field contents "ranges") = Some (b, e) ->
        safe_position b -> safe_position e ->
        ~ (valid_position b /\ valid_position e) ->
        handleIdeProgress textDocument (Some contents) w = (Throw Error, w)).
Proof.
  intros Hc Hs. split.
  - intros Hn. unfold handleIdeProgress, bind, lift.
    rewrite (get_prop_field _ "stage" Hc), Hs, (get_prop_field _ "ranges" Hc).
    by destruct (field contents "ranges") as [[| | | | |]|].
  - intros b e Hr _ _ Hinv.
    unfold handleIdeProgress, bind, lift.
    rewrite (get_prop_field _ "stage" Hc), Hs, (get_prop_field _ "ranges" Hc).
    destruct (field contents "ranges") as [rng|] eqn:Hrng; [|done].
    destruct (range_of_field _ _ _ Hr) as (Hgb & Hge & Hb & He).
    cbv beta iota.
    rewrite Hgb, (mkPosition_position_of _ _ Hb). cbv beta iota.
    rewrite Hge, (mkPosition_position_of _ _ He). cbv beta iota.
    unfold Range_create.
    destruct (Position_is (spec_remap b) && Position_is (spec_remap e)) eqn:Hp;
      [|reflexivity].
    apply andb_true_iff in Hp as [Hp1 Hp2].
    destruct Hinv. split; by apply Position_is_spec_remap.
Qed.

End ProgressEdges.

Lemma handleIdeProgress_rejects_invalid_positions_witness :
  handleIdeProgress doc_a
    (Some (JObj [("stage", JStr "full-buffer-fragment-ok");
                 ("ranges", JObj [("beg", JArr [JNum 0; JNum 0]);
                                  ("end", JArr [JNum 0; JNum 5])])]))
    initial
  = (Throw Error, initial).
Proof.
  apply (proj2 (handleIdeProgress_rejects_invalid_positions doc_a
                  (JObj [("stage", JStr "full-buffer-fragment-ok");
                         ("ranges", JObj [("beg", JArr [JNum 0; JNum 0]);
                                          ("end", JArr [JNum 0; JNum 5])])])
                  initial ltac:(discriminate) eq_refl) (0, 0) (0, 5)).
  - reflexivity.
  - by split.
  - by split.
  - unfold valid_position. cbn [fst snd]. lia.
Defined.

Section StaleOutput.

Variable fsPath : string -> string.
Variable dirname : string -> string.
Variable basename : string -> string.



End StaleOutput.

